(** * pre_workbench: the project persistence layer ([project.py])

    A shallow embedding of class [Project]: the path helper
    [getRelativePath], the key/value store over the [options] table and
    the annotation store over the [annotations] table.

    The Python standard library and SQLite are modelled as far as the
    methods of [Project] use them:
    - [posixpath] ([split], [join], [normpath], [abspath], [relpath]) on
      strings, the current directory being an explicit argument (the
      paths are POSIX paths, as in the examples of the specification);
    - a Python [dict] as an association list in insertion order;
    - [json.dumps] with its default separators and [ensure_ascii];
    - the two tables as lists of rows, with the statements the methods
      execute ([SELECT], [SELECT DISTINCT], [INSERT], [REPLACE]) as list
      functions.  An INTEGER column holds a [Z]: the integers are the
      mathematical ones, the 64 bits of an SQLite integer set no limit
      here.

    A method that changes the database returns the project after the
    commit; [storeAnnotation], which writes into the range object it is
    given, returns that object as the call leaves it. *)

From Stdlib Require Import List String Ascii ZArith Lia Bool Arith.
From Stdlib Require Import DecimalString Sorted Permutation.
Import ListNotations.

Local Open Scope list_scope.
Local Open Scope string_scope.

(** ** Exceptions and results *)

Inductive exn : Type :=
| ValueError        (* os.path.relpath on an empty path *)
| KeyError          (* d[k] on a missing key *)
| IntegrityError    (* sqlite3: datatype mismatch on the rowid *)
| ProgrammingError. (* sqlite3: a parameter of an unsupported type *)

Inductive result (A : Type) : Type :=
| Ok (a : A)
| Raise (e : exn).

Arguments Ok {A} a.
Arguments Raise {A} e.

Definition bind {A B : Type} (m : result A) (k : A -> result B) : result B :=
  match m with
  | Ok a => k a
  | Raise e => Raise e
  end.

Notation "x <- m ;; k" := (bind m (fun x => k))
  (at level 61, m at next level, right associativity).

(** ** Python strings *)

Module PyStr.

(** [s.startswith(p)] *)
Fixpoint startswith (s p : string) {struct p} : bool :=
  match p with
  | EmptyString => true
  | String c p' =>
      match s with
      | EmptyString => false
      | String a s' => Ascii.eqb a c && startswith s' p'
      end
  end.

(** [s.endswith(p)] for a one-character [p] *)
Fixpoint endswith_char (s : string) (c : ascii) : bool :=
  match s with
  | EmptyString => false
  | String a EmptyString => Ascii.eqb a c
  | String _ s' => endswith_char s' c
  end.

(** [s.split(sep)] for a one-character separator: never the empty list *)
Fixpoint split (sep : ascii) (s : string) : list string :=
  match s with
  | EmptyString => [EmptyString]
  | String c s' =>
      if Ascii.eqb c sep then EmptyString :: split sep s'
      else match split sep s' with
           | [] => [String c EmptyString]
           | x :: xs => String c x :: xs
           end
  end.

(** [sep.join(l)] *)
Fixpoint sep_join (sep : string) (l : list string) : string :=
  match l with
  | [] => EmptyString
  | [x] => x
  | x :: xs => x ++ sep ++ sep_join sep xs
  end.

(** [s * n] *)
Fixpoint repeat_str (s : string) (n : nat) : string :=
  match n with
  | O => EmptyString
  | S n' => s ++ repeat_str s n'
  end.

Definition is_empty (s : string) : bool :=
  match s with EmptyString => true | _ => false end.

(** [c in s] for a character [c] *)
Fixpoint has_char (c : ascii) (s : string) : bool :=
  match s with
  | EmptyString => false
  | String a s' => Ascii.eqb c a || has_char c s'
  end.

End PyStr.

(** ** posixpath *)

Module PosixPath.
Import PyStr.

Definition sep : string := "/".
Definition curdir : string := ".".
Definition pardir : string := "..".

Definition isabs (s : string) : bool := startswith s sep.

(** One round of the loop of [join(a, *p)]. *)
Definition join2 (path b : string) : string :=
  if startswith b sep then b
  else if is_empty path || endswith_char path "/"%char then path ++ b
  else path ++ sep ++ b.

Definition join (a : string) (p : list string) : string :=
  fold_left join2 p a.

(** POSIX allows one or two initial slashes, three or more count as one. *)
Definition initial_slashes (path : string) : nat :=
  if startswith path sep then
    if startswith path "//" && negb (startswith path "///") then 2 else 1
  else 0.

Definition is_nil {A : Type} (l : list A) : bool :=
  match l with [] => true | _ => false end.

(** The body of the loop of [normpath] over the components. *)
Definition normpath_step (initial : nat) (new_comps : list string)
           (comp : string) : list string :=
  if (comp =? "") || (comp =? curdir) then new_comps
  else if negb (comp =? pardir)
          || ((initial =? 0)%nat && is_nil new_comps)
          || (negb (is_nil new_comps) && (last new_comps "" =? pardir))
  then (new_comps ++ [comp])%list
  else match new_comps with
       | [] => new_comps
       | _ => removelast new_comps
       end.

Definition normpath (path : string) : string :=
  if is_empty path then curdir
  else
    let initial := initial_slashes path in
    let comps := fold_left (normpath_step initial) (split "/"%char path) [] in
    let path' := sep_join sep comps in
    let path'' := if (initial =? 0)%nat then path'
                  else repeat_str sep initial ++ path' in
    if is_empty path'' then curdir else path''.

(** [abspath]; [cwd] is what [os.getcwd()] returns, read only when
    [path] is not absolute. *)
Definition abspath (cwd path : string) : string :=
  if isabs path then normpath path else normpath (join cwd [path]).

(** [commonprefix([l1, l2])] on two lists of components: the longest
    list that starts both ([min] and [max] of the two only decide which
    of them is scanned). *)
Fixpoint commonprefix (l1 l2 : list string) : list string :=
  match l1, l2 with
  | x :: l1', y :: l2' => if x =? y then x :: commonprefix l1' l2' else []
  | _, _ => []
  end.

(** [[x for x in s.split(sep) if x]] *)
Definition components (s : string) : list string :=
  filter (fun x => negb (is_empty x)) (split "/"%char s).

Definition rel_list (start_list path_list : list string) : list string :=
  let i := List.length (commonprefix start_list path_list) in
  (repeat pardir (List.length start_list - i) ++ skipn i path_list)%list.

(** [os.path.relpath(path, start)] *)
Definition relpath (cwd path start : string) : result string :=
  if is_empty path then Raise ValueError
  else
    let start_list := components (abspath cwd start) in
    let path_list := components (abspath cwd path) in
    match rel_list start_list path_list with
    | [] => Ok curdir
    | a :: p => Ok (join a p)
    end.

(** A component: not empty and without a slash. *)
Definition clean (x : string) : Prop :=
  is_empty x = false /\ has_char "/"%char x = false.

(** The text of a list of components, as [relpath] builds it. *)
Definition rel_text (l : list string) : string :=
  match l with
  | [] => curdir
  | _ => sep_join sep l
  end.

End PosixPath.

(** ** Python values, [dict] and [json.dumps] *)

(** The values a metadata mapping holds, as far as [json.dumps] accepts
    them.  A [str] is a sequence of code points below 256; a [dict] has
    [str] keys and keeps its insertion order. *)
#[warning="-register-all"]
Inductive pyval : Type :=
| PNone
| PBool (b : bool)
| PInt (z : Z)
| PStr (s : string)
| PList (l : list pyval)
| PDict (d : list (string * pyval)).

Definition dict : Type := list (string * pyval).

Module PyDict.

(** [k in d] *)
Fixpoint contains (k : string) (d : dict) : bool :=
  match d with
  | [] => false
  | (k', _) :: d' => (k' =? k) || contains k d'
  end.

(** [d.get(k)] *)
Fixpoint get (k : string) (d : dict) : option pyval :=
  match d with
  | [] => None
  | (k', v) :: d' => if k' =? k then Some v else get k d'
  end.

(** [d[k]] *)
Definition getitem (k : string) (d : dict) : result pyval :=
  match get k d with
  | Some v => Ok v
  | None => Raise KeyError
  end.

(** [d[k] = v]: an existing key keeps its place, a new one goes last. *)
Fixpoint setitem (k : string) (v : pyval) (d : dict) : dict :=
  match d with
  | [] => [(k, v)]
  | (k', v') :: d' =>
      if k' =? k then (k', v) :: d' else (k', v') :: setitem k v d'
  end.

End PyDict.

Module Json.
Import PyStr.

Definition dquote : ascii := ascii_of_nat 34.
Definition backslash : ascii := ascii_of_nat 92.

Definition hex_digit (n : nat) : ascii :=
  if (n <? 10)%nat then ascii_of_nat (48 + n) else ascii_of_nat (87 + n).

Definition str1 (c : ascii) : string := String c EmptyString.

(** The replacement of one character by [ESCAPE_ASCII]/[ESCAPE_DCT]. *)
Definition escape_char (c : ascii) : string :=
  let n := nat_of_ascii c in
  if Ascii.eqb c backslash then String backslash (str1 backslash)
  else if Ascii.eqb c dquote then String backslash (str1 dquote)
  else if (n =? 8)%nat then String backslash "b"
  else if (n =? 12)%nat then String backslash "f"
  else if (n =? 10)%nat then String backslash "n"
  else if (n =? 13)%nat then String backslash "r"
  else if (n =? 9)%nat then String backslash "t"
  else if ((32 <=? n) && (n <=? 126))%nat then str1 c
  else String backslash
         ("u00" ++ String (hex_digit (n / 16)) (str1 (hex_digit (n mod 16)))).

Fixpoint escape (s : string) : string :=
  match s with
  | EmptyString => EmptyString
  | String c s' => escape_char c ++ escape s'
  end.

(** [py_encode_basestring_ascii] *)
Definition encode_basestring_ascii (s : string) : string :=
  String dquote (escape s ++ str1 dquote).

(** [int.__repr__] *)
Definition int_repr (z : Z) : string := NilZero.string_of_int (Z.to_int z).

(** [json.dumps(v)] with the default arguments: separators [", "] and
    [": "], [ensure_ascii=True], keys in insertion order. *)
Fixpoint dumps (v : pyval) : string :=
  match v with
  | PNone => "null"
  | PBool true => "true"
  | PBool false => "false"
  | PInt z => int_repr z
  | PStr s => encode_basestring_ascii s
  | PList l => "[" ++ sep_join ", " (map dumps l) ++ "]"
  | PDict d =>
      "{" ++ sep_join ", "
               (map (fun kv : string * pyval =>
                       let (k, x) := kv in
                       encode_basestring_ascii k ++ ": " ++ dumps x) d)
          ++ "}"
  end.

Definition item (kv : string * pyval) : string :=
  encode_basestring_ascii (fst kv) ++ ": " ++ dumps (snd kv).

End Json.

(** ** The database *)

Definition bytes : Type := list Byte.byte.

(** A row of [annotations (rowid INTEGER PRIMARY KEY, set_name TEXT NOT
    NULL, start INTEGER NOT NULL, end INTEGER NOT NULL, meta TEXT NOT NULL)] *)
Record annotation_row : Type := mk_annotation {
  rowid : Z;
  set_name : string;
  row_start : Z;
  row_end : Z;
  meta : string
}.

(** A row of [options (name TEXT PRIMARY KEY, value BLOB NOT NULL)] *)
Record option_row : Type := mk_option {
  name : string;
  value : bytes
}.

Record Database : Type := mk_db {
  annotations : list annotation_row;
  options : list option_row
}.

(** What a database file holds before [initDb]: a table may not exist. *)
Record DbFile : Type := mk_file {
  file_annotations : option (list annotation_row);
  file_options : option (list option_row)
}.

(** A parameter as sqlite3 binds it. *)
Inductive sqlval : Type :=
| SqlNull
| SqlInteger (z : Z)
| SqlText (s : string).

Module Sqlite.

(** [sqlite3.connect] on a path where no file is: an empty database. *)
Definition new_file : DbFile :=
  {| file_annotations := None; file_options := None |}.

(** [CREATE TABLE IF NOT EXISTS] *)
Definition create_if_not_exists {A : Type} (t : option (list A)) : list A :=
  match t with
  | Some rows => rows
  | None => []
  end.

(** [cursor.fetchone()] *)
Definition fetchone {A : Type} (rows : list A) : option A :=
  match rows with
  | [] => None
  | r :: _ => Some r
  end.

(** [SELECT value FROM options WHERE name = ?] *)
Definition select_value (tbl : list option_row) (key : string) : list bytes :=
  map value (filter (fun r => name r =? key) tbl).

(** [REPLACE INTO options (name, value) VALUES (?,?)]: the row that
    holds the primary key goes, the new row is added. *)
Definition replace_option (tbl : list option_row) (key : string) (v : bytes)
  : list option_row :=
  (filter (fun r => negb (name r =? key)) tbl ++ [mk_option key v])%list.

(** [SELECT DISTINCT]: a value is returned where the scan first meets it. *)
Fixpoint distinct (seen : list string) (l : list string) : list string :=
  match l with
  | [] => []
  | x :: l' =>
      if existsb (String.eqb x) seen then distinct seen l'
      else x :: distinct (x :: seen) l'
  end.

(** [SELECT DISTINCT set_name FROM annotations] *)
Definition select_distinct_set_name (tbl : list annotation_row) : list string :=
  distinct [] (map set_name tbl).

(** The columns [rowid, start, end, meta] of a row. *)
Definition row_tuple (r : annotation_row) : Z * Z * Z * string :=
  (rowid r, row_start r, row_end r, meta r).

(** [SELECT rowid, start, end, meta FROM annotations WHERE set_name = ?] *)
Definition select_annotations (tbl : list annotation_row) (s : string)
  : list (Z * Z * Z * string) :=
  map row_tuple (filter (fun r => set_name r =? s) tbl).

(** The rowid SQLite gives a row inserted without one: 1 in an empty
    table, otherwise one more than the largest rowid. *)
Definition new_rowid (tbl : list annotation_row) : Z :=
  match map rowid tbl with
  | [] => 1%Z
  | r :: rs => (fold_left Z.max rs r + 1)%Z
  end.

(** The table is kept in rowid order, the order of a scan. *)
Fixpoint insert_row (r : annotation_row) (tbl : list annotation_row)
  : list annotation_row :=
  match tbl with
  | [] => [r]
  | x :: tbl' =>
      if (rowid r <? rowid x)%Z then r :: x :: tbl' else x :: insert_row r tbl'
  end.

Definition delete_rowid (k : Z) (tbl : list annotation_row)
  : list annotation_row :=
  filter (fun r => negb (rowid r =? k)%Z) tbl.

(** [INSERT INTO annotations (set_name, start, end, meta) VALUES
    (?,?,?,?)]; the second component is [cursor.lastrowid]. *)
Definition insert_annotation (tbl : list annotation_row)
           (s : string) (st en : Z) (m : string)
  : list annotation_row * Z :=
  let k := new_rowid tbl in
  (insert_row (mk_annotation k s st en m) tbl, k).

Section Replace.

(** The conversion SQLite applies to a TEXT value given for an
    INTEGER PRIMARY KEY column: the integer the text denotes, if any. *)
Variable text_to_integer : string -> option Z.

(** [REPLACE INTO annotations (rowid, set_name, start, end, meta)
    VALUES (?,?,?,?,?)]: a NULL rowid is assigned as by INSERT, any
    row that holds the rowid goes, the new row is added. *)
Definition replace_annotation (tbl : list annotation_row)
           (k : sqlval) (s : string) (st en : Z) (m : string)
  : result (list annotation_row * Z) :=
  match k with
  | SqlNull => Ok (insert_annotation tbl s st en m)
  | SqlInteger z =>
      Ok (insert_row (mk_annotation z s st en m) (delete_rowid z tbl), z)
  | SqlText t =>
      match text_to_integer t with
      | Some z =>
          Ok (insert_row (mk_annotation z s st en m) (delete_rowid z tbl), z)
      | None => Raise IntegrityError
      end
  end.

End Replace.

(** How sqlite3 binds a Python value; [bool] is a subclass of [int]. *)
Definition bind_param (v : pyval) : result sqlval :=
  match v with
  | PNone => Ok SqlNull
  | PBool b => Ok (SqlInteger (if b then 1%Z else 0%Z))
  | PInt z => Ok (SqlInteger z)
  | PStr s => Ok (SqlText s)
  | PList _ | PDict _ => Raise ProgrammingError
  end.

End Sqlite.

(** ** [class Project] *)

(** The attributes of a range object that [Project] reads and writes. *)
Record Range : Type := mk_range {
  start : Z;
  end_ : Z;
  metadata : dict
}.

Record Project : Type := mk_project {
  projectFolder : string;
  projectDbFile : string;
  db : Database
}.

(** Modelled from the spec: the structured-serialization codec
    ([pre_workbench.structinfo.xdrm]), which [project.py] imports and whose
    source is missing; the spec has it encode and decode arbitrary values
    to and from bytes.  [pyobj] is the type of the values it handles. *)
Class Codec (pyobj : Type) : Type := {
  xdrm_dumps : pyobj -> bytes;
  xdrm_loads : bytes -> pyobj
}.

(** Modelled from the spec: decoding what the codec encoded gives the
    value back (the round trip the spec expects of option values). *)
Definition codec_roundtrip {pyobj : Type} (C : Codec pyobj) : Prop :=
  forall v : pyobj, xdrm_loads (xdrm_dumps v) = v.

Definition initDb (f : DbFile) : Database :=
  {| annotations := Sqlite.create_if_not_exists (file_annotations f);
     options := Sqlite.create_if_not_exists (file_options f) |}.

(** [Project.__init__]: [file] is the content of the database file, if
    there is one.  The format-info container built at the end is a GUI
    collaborator and has no part in the store. *)
Definition Project_init (dirName : string) (file : option DbFile) : Project :=
  {| projectFolder := dirName;
     projectDbFile := PosixPath.join dirName [".pre_workbench"];
     db := initDb (match file with
                   | Some f => f
                   | None => Sqlite.new_file
                   end) |}.

Definition getRelativePath (cwd : string) (self : Project)
           (absolutePath : string) : result string :=
  path <- PosixPath.relpath cwd absolutePath (projectFolder self) ;;
  if PyStr.startswith path ".." then Ok absolutePath else Ok path.

Definition with_options (self : Project) (t : list option_row) : Project :=
  {| projectFolder := projectFolder self;
     projectDbFile := projectDbFile self;
     db := {| annotations := annotations (db self); options := t |} |}.

Definition with_annotations (self : Project) (t : list annotation_row)
  : Project :=
  {| projectFolder := projectFolder self;
     projectDbFile := projectDbFile self;
     db := {| annotations := t; options := options (db self) |} |}.

Section KeyValue.

Context {pyobj : Type} {codec : Codec pyobj}.

Definition getValue (self : Project) (key : string) (defaultValue : pyobj)
  : pyobj :=
  let result := Sqlite.fetchone (Sqlite.select_value (options (db self)) key) in
  match result with
  | Some v => xdrm_loads v
  | None => defaultValue
  end.

Definition setValue (self : Project) (key : string) (v : pyobj) : Project :=
  with_options self
    (Sqlite.replace_option (options (db self)) key (xdrm_dumps v)).

(** A sequence of [setValue] calls, first call first. *)
Definition setValues (self : Project) (calls : list (string * pyobj))
  : Project :=
  fold_left (fun p kv => setValue p (fst kv) (snd kv)) calls self.

End KeyValue.

(** The number of rows of [options] that hold the name [n]. *)
Definition rows_named (self : Project) (n : string) : nat :=
  List.length (filter (fun r => name r =? n) (options (db self))).

Definition getAnnotationSetNames (self : Project) : list string :=
  Sqlite.select_distinct_set_name (annotations (db self)).

Definition getAnnotations (self : Project) (set_name : string)
  : list (Z * Z * Z * string) :=
  Sqlite.select_annotations (annotations (db self)) set_name.

Section Annotations.

Variable text_to_integer : string -> option Z.

(** The statement [storeAnnotation] executes: the new table and
    [cursor.lastrowid]. *)
Definition store_execute (tbl : list annotation_row) (set_name : string)
           (range : Range) : result (list annotation_row * Z) :=
  if PyDict.contains "rowid" (metadata range) then
    v <- PyDict.getitem "rowid" (metadata range) ;;
    k <- Sqlite.bind_param v ;;
    Sqlite.replace_annotation text_to_integer tbl k set_name
      (start range) (end_ range) (Json.dumps (PDict (metadata range)))
  else
    Ok (Sqlite.insert_annotation tbl set_name
          (start range) (end_ range) (Json.dumps (PDict (metadata range)))).

(** The project after the commit and the range object as the call
    leaves it; an exception leaves both as they were. *)
Definition storeAnnotation (self : Project) (set_name : string)
           (range : Range) : result (Project * Range) :=
  r <- store_execute (annotations (db self)) set_name range ;;
  let (tbl, lastrowid) := r in
  Ok (with_annotations self tbl,
      {| start := start range;
         end_ := end_ range;
         metadata := PyDict.setitem "rowid" (PInt lastrowid) (metadata range) |}).

(** A sequence of [storeAnnotation] calls, first call first; the first
    exception ends it. *)
Fixpoint storeAll (self : Project) (calls : list (string * Range))
  : result Project :=
  match calls with
  | [] => Ok self
  | (s, range) :: calls' =>
      r <- storeAnnotation self s range ;;
      storeAll (fst r) calls'
  end.

End Annotations.

(** The row [storeAnnotation] writes for [range] at the rowid [k]. *)
Definition stored_row (k : Z) (s : string) (range : Range) : annotation_row :=
  mk_annotation k s (start range) (end_ range)
                (Json.dumps (PDict (metadata range))).

(** A range that was not stored yet: its metadata has no [rowid] key. *)
Definition is_new (range : Range) : Prop :=
  PyDict.contains "rowid" (metadata range) = false.

(** The codec that keeps bytes as they are. *)
Definition raw_codec : Codec bytes :=
  {| xdrm_dumps := fun b => b; xdrm_loads := fun b => b |}.

(** The rows of the annotations table that hold the rowid [k]. *)
Definition rows_at (k : Z) (tbl : list annotation_row) : list annotation_row :=
  filter (fun r => (rowid r =? k)%Z) tbl.

(** The tuples of a [getAnnotations] result that hold the rowid [k]. *)
Definition tuples_at (k : Z) (rows : list (Z * Z * Z * string))
  : list (Z * Z * Z * string) :=
  filter (fun t => (fst (fst (fst t)) =? k)%Z) rows.

(** A scan meets the rows by growing rowid; no rowid is held twice. *)
Definition rowid_order (tbl : list annotation_row) : Prop :=
  StronglySorted Z.lt (map rowid tbl).

(** ** Concrete inputs *)

(** A range as the hex view makes one, and the same range stored once. *)
Definition header_range : Range :=
  {| start := 3; end_ := 9;
     metadata := [("name", PStr "hdr"); ("color", PStr "#ff0000")] |}.

Definition header_range_stored : Range :=
  {| start := 4; end_ := 12;
     metadata := [("name", PStr "hdr"); ("color", PStr "#ff0000");
                  ("rowid", PInt 1)] |}.

Definition no_text_rowid (s : string) : option Z := None.

(** ** Reopening a project, and the format-info container *)

(** The database file after a commit of [self.db]: both tables exist and
    hold the rows of the connection. *)
Definition db_file (self : Project) : DbFile :=
  {| file_annotations := Some (annotations (db self));
     file_options := Some (options (db self)) |}.

(** [Project(dirName)] once more, on the directory of [self] and the
    file [self] committed. *)
Definition reopen (self : Project) : Project :=
  Project_init (projectFolder self) (Some (db_file self)).

(** The grammar a project without the option [format_infos] starts with:
    the second argument of [getValue] in [Project.__init__]. *)
Definition default_format_infos : string :=
  "DEFAULT struct(endianness="
    ++ String Json.dquote ("<" ++ String Json.dquote ") {}").

Section FormatInfos.

Context {pyobj : Type} {codec : Codec pyobj}.

(** A Python [str] as a value the codec handles. *)
Variable py_str : string -> pyobj.

(** The [load_from_string] argument [Project.__init__] gives to
    [ProjectFormatInfoContainer]. *)
Definition load_from_string (self : Project) : pyobj :=
  getValue self "format_infos" (py_str default_format_infos).

(** [ProjectFormatInfoContainer.write_file]: [project] is [self.project],
    [text] is what [self.to_text()] returns; [fileName] is not used.  The
    signal [updated] reaches the GUI only. *)
Definition write_file (project : Project) (text : string) (fileName : string)
  : Project :=
  setValue project "format_infos" (py_str text).

End FormatInfos.

(** A path component that [normpath] keeps as it is: not empty, without
    a slash, and neither [.] nor [..]. *)
Definition plain (c : string) : bool :=
  negb (PyStr.is_empty c) && negb (PyStr.has_char "/"%char c)
  && negb (c =? ".") && negb (c =? "..").

(** The components of [normpath] before they are joined. *)
Definition norm_comps (initial : nat) (path : string) : list string :=
  fold_left (PosixPath.normpath_step initial) (PyStr.split "/"%char path) [].

(** A character [json.dumps] leaves in its output: printable ASCII. *)
Definition printable (c : ascii) : bool :=
  ((32 <=? nat_of_ascii c) && (nat_of_ascii c <=? 126))%nat.

Fixpoint all_printable (s : string) : bool :=
  match s with
  | EmptyString => true
  | String c s' => printable c && all_printable s'
  end.

(** Ranges whose [rowid] entry does not hold an integer. *)
Definition range_rowid_none : Range :=
  {| start := 0; end_ := 4; metadata := [("rowid", PNone)] |}.

Definition range_rowid_list : Range :=
  {| start := 0; end_ := 4; metadata := [("rowid", PList [PInt 1])] |}.

Definition payload_range : Range :=
  {| start := 16; end_ := 64;
     metadata := [("name", PStr "payload")] |}.

(** * Properties *)

(** ** Strings *)

Module PyStrFacts.
Import PyStr.

Lemma append_assoc (a b c : string) : (a ++ b) ++ c = a ++ (b ++ c).
Proof. induction a as [|x a IH]; simpl; [reflexivity | now rewrite IH]. Qed.

Lemma append_nil_r (a : string) : a ++ "" = a.
Proof. induction a as [|x a IH]; simpl; [reflexivity | now rewrite IH]. Qed.

Lemma length_append (a b : string) :
  String.length (a ++ b) = (String.length a + String.length b)%nat.
Proof. induction a as [|x a IH]; simpl; [reflexivity | now rewrite IH]. Qed.

Lemma startswith_refl (a : string) : startswith a a = true.
Proof.
  induction a as [|x a IH]; simpl; [reflexivity|].
  now rewrite Ascii.eqb_refl.
Qed.

Lemma startswith_app (x y a : string) :
  startswith x a = true -> startswith (x ++ y) a = true.
Proof.
  revert x.
  induction a as [|c a IH]; intros x H; simpl in *.
  - reflexivity.
  - destruct x as [|d x]; simpl in *; [discriminate|].
    apply andb_true_iff in H. destruct H as [H1 H2].
    now rewrite H1, (IH _ H2).
Qed.

Lemma startswith_sep_join (s x : string) (xs : list string) :
  startswith (sep_join s (x :: xs)) x = true.
Proof.
  destruct xs as [|y ys]; simpl.
  - apply startswith_refl.
  - apply startswith_app, startswith_refl.
Qed.

(** No component that [split] returns holds the separator. *)
Lemma split_no_sep (c : ascii) (s x : string) :
  In x (split c s) -> has_char c x = false.
Proof.
  revert x. induction s as [|a s IH]; intros x H; simpl in H.
  - destruct H as [<-|[]]. reflexivity.
  - destruct (Ascii.eqb a c) eqn:E.
    + destruct H as [<-|H]; [reflexivity | now apply IH].
    + destruct (split c s) as [|y ys] eqn:Es.
      * destruct H as [<-|[]]. simpl. now rewrite Ascii.eqb_sym, E.
      * destruct H as [<-|H].
        -- simpl. rewrite Ascii.eqb_sym, E. simpl. apply IH. now left.
        -- apply IH. now right.
Qed.

Lemma endswith_char_app (a b : string) (c : ascii) :
  is_empty b = false -> endswith_char (a ++ b) c = endswith_char b c.
Proof.
  intros Hb. induction a as [|x a IH]; simpl; [reflexivity|].
  destruct (a ++ b) eqn:E.
  - destruct a, b; simpl in *; discriminate.
  - exact IH.
Qed.

Lemma no_char_endswith (b : string) (c : ascii) :
  has_char c b = false -> endswith_char b c = false.
Proof.
  induction b as [|x b IH]; simpl; intros H; [reflexivity|].
  apply orb_false_iff in H. destruct H as [H1 H2].
  destruct b; [now rewrite Ascii.eqb_sym | now apply IH].
Qed.

Lemma no_char_startswith (b : string) (c : ascii) :
  has_char c b = false -> startswith b (String c "") = false.
Proof.
  destruct b as [|x b]; simpl; intros H; [reflexivity|].
  apply orb_false_iff in H. destruct H as [H1 _].
  now rewrite Ascii.eqb_sym, H1.
Qed.

Lemma is_empty_app (a b : string) :
  is_empty b = false -> is_empty (a ++ b) = false.
Proof. destruct a, b; simpl; congruence. Qed.

End PyStrFacts.

(** ** Paths *)

Module PosixPathFacts.
Import PyStr PyStrFacts PosixPath.

Lemma components_clean (s x : string) : In x (components s) -> clean x.
Proof.
  unfold components. intros H. apply filter_In in H. destruct H as [H1 H2].
  split.
  - now apply negb_true_iff.
  - now apply (split_no_sep _ s).
Qed.

Lemma pardir_clean : clean pardir.
Proof. split; reflexivity. Qed.

Lemma join2_clean (path b : string) :
  is_empty path = false -> endswith_char path "/"%char = false -> clean b ->
  join2 path b = path ++ sep ++ b.
Proof.
  intros Hp He [_ Hb]. unfold join2.
  rewrite (no_char_startswith _ _ Hb : startswith b sep = false).
  now rewrite Hp, He.
Qed.

Lemma join_sep_join (p : list string) : forall acc : string,
  is_empty acc = false -> endswith_char acc "/"%char = false ->
  Forall clean p ->
  join acc p = sep_join sep (acc :: p).
Proof.
  unfold join.
  induction p as [|b p IH]; intros acc Hacc Hend Hp; simpl; [reflexivity|].
  inversion Hp as [|? ? Hb Hp']; subst.
  rewrite (join2_clean _ _ Hacc Hend Hb).
  rewrite IH; trivial.
  - destruct p as [|c p]; simpl.
    + reflexivity.
    + now rewrite !append_assoc.
  - apply is_empty_app. reflexivity.
  - destruct Hb as [Hb1 Hb2].
    rewrite endswith_char_app by reflexivity.
    change (sep ++ b) with (String "/"%char b).
    destruct b; [discriminate|].
    apply (no_char_endswith _ _ Hb2).
Qed.

Lemma commonprefix_length (l1 l2 : list string) :
  (List.length (commonprefix l1 l2) <= List.length l1)%nat.
Proof.
  revert l2. induction l1 as [|x l1 IH]; intros [|y l2]; simpl; try lia.
  destruct (x =? y); simpl; [specialize (IH l2)|]; lia.
Qed.

Lemma commonprefix_whole (l1 l2 : list string) :
  (List.length l1 <= List.length (commonprefix l1 l2))%nat ->
  l2 = (l1 ++ skipn (List.length (commonprefix l1 l2)) l2)%list.
Proof.
  revert l2. induction l1 as [|x l1 IH]; intros [|y l2]; simpl; intros H;
    try reflexivity; try lia.
  destruct (String.eqb_spec x y) as [->|]; simpl in *; [|lia].
  f_equal. apply IH. lia.
Qed.

(** Either the relative path climbs out of [start_list], or
    [start_list] begins [path_list] and only the rest is left. *)
Lemma rel_list_cases (start_list path_list : list string) :
  (exists rest, rel_list start_list path_list = pardir :: rest) \/
  path_list = (start_list ++ rel_list start_list path_list)%list.
Proof.
  unfold rel_list.
  destruct (List.length start_list
            - List.length (commonprefix start_list path_list))%nat eqn:E.
  - right. simpl. apply commonprefix_whole. lia.
  - left. simpl. eauto.
Qed.

Lemma rel_list_clean (start_list path_list : list string) :
  Forall clean path_list -> Forall clean (rel_list start_list path_list).
Proof.
  intros H. unfold rel_list. apply Forall_app. split.
  - apply Forall_forall. intros x Hx. apply repeat_spec in Hx. subst.
    apply pardir_clean.
  - apply Forall_forall. intros x Hx.
    rewrite Forall_forall in H. apply H.
    rewrite <- (firstn_skipn (List.length (commonprefix start_list path_list))
                             path_list).
    apply in_or_app. now right.
Qed.

Lemma relpath_text (cwd path start : string) :
  is_empty path = false ->
  relpath cwd path start =
    Ok (rel_text (rel_list (components (abspath cwd start))
                           (components (abspath cwd path)))).
Proof.
  intros Hp. unfold relpath. rewrite Hp.
  pose proof (rel_list_clean (components (abspath cwd start))
                             (components (abspath cwd path))) as Hc.
  destruct (rel_list _ _) as [|a p]; [reflexivity|].
  assert (Forall clean (a :: p)) as Hall.
  { apply Hc. apply Forall_forall. intros x. apply components_clean. }
  inversion Hall as [|? ? [Ha1 Ha2] Hp']; subst.
  unfold rel_text. f_equal. apply join_sep_join; trivial.
  now apply no_char_endswith.
Qed.

Lemma isabs_not_empty (p : string) : isabs p = true -> is_empty p = false.
Proof. destruct p; [discriminate | reflexivity]. Qed.

Lemma abspath_isabs (cwd cwd' p : string) :
  isabs p = true -> abspath cwd p = abspath cwd' p.
Proof. unfold abspath. now intros ->. Qed.

End PosixPathFacts.

Section GetRelativePath.
Import PyStr PyStrFacts PosixPath PosixPathFacts.

Lemma getRelativePath_unfold (cwd : string) (self : Project) (P rel : string) :
  relpath cwd P (projectFolder self) = Ok rel ->
  getRelativePath cwd self P = Ok (if startswith rel ".." then P else rel).
Proof.
  intros H. unfold getRelativePath. rewrite H. unfold bind.
  now destruct (startswith rel "..").
Qed.

(** C5.  For an absolute path [P], [getRelativePath] returns [P] made
    relative to the project directory, and [P] itself when that relative
    path starts with the parent marker [..].  When the relative path is
    returned, the project directory begins [P] and the result is the text
    of the remaining components.  The result is a function of the two
    paths alone when the project directory is absolute (nothing is read
    from the environment), and the method returns only a string: the
    project is not touched.  On a project at [/proj], [/proj/sub/file.bin]
    gives [sub/file.bin] and [/other/file.bin] is returned as it is. *)
Theorem getRelativePath_relative :
  forall (cwd : string) (self : Project) (P : string),
    isabs P = true ->
    exists rel : string,
      relpath cwd P (projectFolder self) = Ok rel /\
      getRelativePath cwd self P
        = Ok (if startswith rel ".." then P else rel) /\
      (startswith rel ".." = false ->
       exists comps : list string,
         components (abspath cwd P)
           = (components (abspath cwd (projectFolder self)) ++ comps)%list /\
         rel = match comps with [] => "." | _ => sep_join "/" comps end) /\
      (isabs (projectFolder self) = true ->
       forall cwd' : string,
         getRelativePath cwd' self P = getRelativePath cwd self P) /\
      (forall file : option DbFile,
          getRelativePath cwd (Project_init "/proj" file) "/proj/sub/file.bin"
            = Ok "sub/file.bin") /\
      (forall file : option DbFile,
          getRelativePath cwd (Project_init "/proj" file) "/other/file.bin"
            = Ok "/other/file.bin").
Proof.
  intros cwd self P HP.
  pose proof (relpath_text cwd P (projectFolder self) (isabs_not_empty _ HP))
    as Hrel.
  eexists. split; [exact Hrel|]. split; [now apply getRelativePath_unfold|].
  split; [|split; [|split]].
  - intros Hs.
    destruct (rel_list_cases (components (abspath cwd (projectFolder self)))
                             (components (abspath cwd P))) as [[rest Hr]|Hr].
    + rewrite Hr in Hs.
      change (startswith (sep_join sep (pardir :: rest)) pardir = false) in Hs.
      rewrite startswith_sep_join in Hs. discriminate.
    + eexists. split; [exact Hr | reflexivity].
  - intros Hf cwd'. unfold getRelativePath, relpath.
    now rewrite (abspath_isabs cwd' cwd _ HP), (abspath_isabs cwd' cwd _ Hf).
  - intros file. reflexivity.
  - intros file. reflexivity.
Qed.

(** C10.  Whenever the relative path begins with the two characters
    [..], the absolute path comes back unchanged; that is also so for a
    file inside the project directory whose first component merely starts
    with [..]: on a project at [/proj], [/proj/..hidden] has the relative
    path [..hidden], lies under [/proj], and is returned as it is. *)
Theorem getRelativePath_two_dots :
  forall (cwd : string) (self : Project) (P rel : string),
    relpath cwd P (projectFolder self) = Ok rel ->
    startswith rel ".." = true ->
    getRelativePath cwd self P = Ok P /\
    (forall file : option DbFile,
        relpath cwd "/proj/..hidden" (projectFolder (Project_init "/proj" file))
          = Ok "..hidden" /\
        components (abspath cwd "/proj/..hidden")
          = (components (abspath cwd "/proj") ++ ["..hidden"])%list /\
        getRelativePath cwd (Project_init "/proj" file) "/proj/..hidden"
          = Ok "/proj/..hidden").
Proof.
  intros cwd self P rel Hrel Hs. split.
  - rewrite (getRelativePath_unfold _ _ _ _ Hrel). now rewrite Hs.
  - intros file. repeat split.
Qed.

Lemma getRelativePath_relative_witness :
  isabs "/proj/sub/file.bin" = true /\
  exists rel : string,
    relpath "/home" "/proj/sub/file.bin" "/proj" = Ok rel /\
    getRelativePath "/home" (Project_init "/proj" None) "/proj/sub/file.bin"
      = Ok (if startswith rel ".." then "/proj/sub/file.bin" else rel).
Proof.
  split; [reflexivity|].
  destruct (getRelativePath_relative "/home" (Project_init "/proj" None)
              "/proj/sub/file.bin" eq_refl) as [rel [H1 [H2 _]]].
  exists rel. split; assumption.
Defined.

Lemma getRelativePath_two_dots_witness :
  getRelativePath "/home" (Project_init "/proj" None) "/proj/..hidden"
    = Ok "/proj/..hidden".
Proof.
  apply (getRelativePath_two_dots "/home" (Project_init "/proj" None)
           "/proj/..hidden" "..hidden"); reflexivity.
Defined.

End GetRelativePath.

(** ** The options table *)

Module SqliteFacts.
Import Sqlite.

Lemma filter_none {A : Type} (f : A -> bool) (l : list A) :
  (forall x, In x l -> f x = false) -> filter f l = [].
Proof.
  induction l as [|x l IH]; intros H; simpl; [reflexivity|].
  rewrite (H x (or_introl eq_refl)). apply IH. intros y Hy. apply H. now right.
Qed.

Lemma filter_all {A : Type} (f : A -> bool) (l : list A) :
  (forall x, In x l -> f x = true) -> filter f l = l.
Proof.
  induction l as [|x l IH]; intros H; simpl; [reflexivity|].
  rewrite (H x (or_introl eq_refl)). f_equal. apply IH.
  intros y Hy. apply H. now right.
Qed.

Lemma filter_filter {A : Type} (f g : A -> bool) (l : list A) :
  filter f (filter g l) = filter (fun x => g x && f x) l.
Proof.
  induction l as [|x l IH]; simpl; [reflexivity|].
  destruct (g x); simpl; [destruct (f x)|]; now rewrite IH.
Qed.

Lemma select_value_replaced (tbl : list option_row) (k : string) (v : bytes) :
  select_value (replace_option tbl k v) k = [v].
Proof.
  unfold select_value, replace_option.
  rewrite filter_app, filter_filter. simpl. rewrite String.eqb_refl.
  rewrite filter_none; [reflexivity|].
  intros x _. now destruct (name x =? k).
Qed.

Lemma select_value_other (tbl : list option_row) (k k' : string) (v : bytes) :
  k' <> k ->
  select_value (replace_option tbl k v) k' = select_value tbl k'.
Proof.
  intros Hk. unfold select_value, replace_option.
  rewrite filter_app, filter_filter. simpl.
  apply String.eqb_neq in Hk. rewrite String.eqb_sym, Hk. simpl.
  rewrite app_nil_r. f_equal. apply filter_ext. intros x.
  destruct (String.eqb_spec (name x) k'); [|now rewrite andb_false_r].
  subst. now rewrite Hk.
Qed.

End SqliteFacts.

Section KeyValueFacts.
Import Sqlite SqliteFacts.

Context {pyobj : Type} {codec : Codec pyobj}.

Lemma getValue_setValue_raw (p : Project) (K : string) (V D : pyobj) :
  getValue (setValue p K V) K D = xdrm_loads (xdrm_dumps V).
Proof.
  unfold getValue, setValue, with_options. simpl.
  now rewrite select_value_replaced.
Qed.

Lemma getValue_setValue_other (p : Project) (K K' : string) (V D : pyobj) :
  K' <> K -> getValue (setValue p K V) K' D = getValue p K' D.
Proof.
  intros H. unfold getValue, setValue, with_options. simpl.
  now rewrite select_value_other.
Qed.

Lemma rows_named_setValue (p : Project) (K : string) (V : pyobj) (n : string) :
  rows_named (setValue p K V) n = if n =? K then 1%nat else rows_named p n.
Proof.
  unfold rows_named, setValue, with_options, replace_option. simpl.
  rewrite filter_app, filter_filter, length_app. simpl.
  rewrite (String.eqb_sym K n).
  destruct (String.eqb_spec n K) as [->|Hn]; simpl.
  - rewrite filter_none; [reflexivity|].
    intros x _. now destruct (name x =? K).
  - rewrite Nat.add_0_r. f_equal. apply filter_ext. intros x.
    destruct (String.eqb_spec (name x) n); [|now rewrite andb_false_r].
    subst. apply String.eqb_neq in Hn. now rewrite Hn.
Qed.

Lemma rows_named_setValues (calls : list (string * pyobj)) :
  forall p : Project,
    (forall n, rows_named p n <= 1)%nat ->
    forall n, (rows_named (setValues p calls) n <= 1)%nat.
Proof.
  induction calls as [|[k v] calls IH]; intros p Hp n; simpl.
  - apply Hp.
  - apply IH. intros m. rewrite rows_named_setValue.
    destruct (m =? k); [lia | apply Hp].
Qed.

(** C1.  With a codec that decodes what it encoded, [getValue(K, D)]
    after [setValue(K, V)] on the same project is [V], whatever [D] is. *)
Theorem getValue_setValue_roundtrip :
  codec_roundtrip codec ->
  forall (p : Project) (K : string) (V D : pyobj),
    getValue (setValue p K V) K D = V.
Proof.
  intros Hrt p K V D. rewrite getValue_setValue_raw. apply Hrt.
Qed.

(** C6.  When no row of [options] holds [K], and after any calls of
    [setValue] on other keys, [getValue(K, D)] is [D]; [getValue] is a
    total function, no exception comes from the missing key. *)
Theorem getValue_never_set :
  forall (p : Project) (K : string) (D : pyobj)
         (calls : list (string * pyobj)),
    (forall r, In r (options (db p)) -> name r <> K) ->
    ~ In K (map fst calls) ->
    getValue (setValues p calls) K D = D.
Proof.
  intros p K D calls. revert p.
  induction calls as [|[k v] calls IH]; intros p Hp Hc; simpl.
  - unfold getValue, select_value. rewrite filter_none; [reflexivity|].
    intros r Hr. apply String.eqb_neq. now apply Hp.
  - apply IH.
    + unfold setValue, with_options, replace_option. simpl.
      intros r Hr. apply in_app_or in Hr. destruct Hr as [Hr|[<-|[]]].
      * apply filter_In in Hr. apply Hp, Hr.
      * simpl. intros ->. apply Hc. now left.
    + intros H. apply Hc. now right.
Qed.

(** C7.  Two [setValue] calls on one key leave the second value to
    [getValue] (with a codec that decodes what it encoded), and no
    sequence of [setValue] calls makes the options table hold a name
    twice: on a table without a repeated name, as on a new project. *)
Theorem setValue_last_write_wins :
  codec_roundtrip codec ->
  forall (p : Project) (K : string) (V1 V2 D : pyobj),
    getValue (setValue (setValue p K V1) K V2) K D = V2 /\
    ((forall n, rows_named p n <= 1)%nat ->
     forall (calls : list (string * pyobj)) (n : string),
       (rows_named (setValues p calls) n <= 1)%nat) /\
    (forall (dir : string) (calls : list (string * pyobj)) (n : string),
        (rows_named (setValues (Project_init dir None) calls) n <= 1)%nat).
Proof.
  intros Hrt p K V1 V2 D. split; [|split].
  - rewrite getValue_setValue_raw. apply Hrt.
  - intros Hp calls. now apply rows_named_setValues.
  - intros dir calls. apply rows_named_setValues.
    intros n. unfold rows_named. simpl. lia.
Qed.

End KeyValueFacts.

(** ** The annotations table *)

Module AnnotationTable.
Import Sqlite SqliteFacts.

Lemma insert_row_split (r : annotation_row) (tbl : list annotation_row) :
  exists pre post : list annotation_row,
    tbl = (pre ++ post)%list /\ insert_row r tbl = (pre ++ r :: post)%list.
Proof.
  induction tbl as [|x tbl IH]; simpl.
  - exists [], []. split; reflexivity.
  - destruct (rowid r <? rowid x)%Z.
    + exists [], (x :: tbl). split; reflexivity.
    + destruct IH as [pre [post [E1 E2]]].
      exists (x :: pre), post. simpl. now rewrite E2, <- E1.
Qed.

Lemma insert_row_perm (r : annotation_row) (tbl : list annotation_row) :
  Permutation (insert_row r tbl) (r :: tbl).
Proof.
  destruct (insert_row_split r tbl) as [pre [post [E1 E2]]].
  rewrite E2, E1. symmetry. apply Permutation_middle.
Qed.

Lemma insert_row_In (r x : annotation_row) (tbl : list annotation_row) :
  In x (insert_row r tbl) <-> x = r \/ In x tbl.
Proof.
  split; intros H.
  - apply (Permutation_in _ (insert_row_perm r tbl)) in H.
    destruct H as [<-|H]; auto.
  - apply (Permutation_in _ (Permutation_sym (insert_row_perm r tbl))).
    destruct H as [->|H]; [now left | now right].
Qed.

Lemma insert_row_filter (f : annotation_row -> bool) (r : annotation_row)
      (tbl : list annotation_row) :
  exists pre post : list annotation_row,
    filter f tbl = (pre ++ post)%list /\
    filter f (insert_row r tbl)
      = (pre ++ (if f r then [r] else []) ++ post)%list.
Proof.
  destruct (insert_row_split r tbl) as [pre [post [E1 E2]]].
  exists (filter f pre), (filter f post).
  rewrite E2, E1, !filter_app. simpl. split; [reflexivity|].
  now destruct (f r).
Qed.

Lemma insert_row_length (r : annotation_row) (tbl : list annotation_row) :
  List.length (insert_row r tbl) = S (List.length tbl).
Proof. apply (Permutation_length (insert_row_perm r tbl)). Qed.

(** The row put at a rowid that no other row holds is the one row there. *)
Lemma rows_at_insert (r : annotation_row) (tbl : list annotation_row) :
  (forall x, In x tbl -> rowid x <> rowid r) ->
  rows_at (rowid r) (insert_row r tbl) = [r].
Proof.
  intros H. unfold rows_at.
  destruct (insert_row_filter (fun x => (rowid x =? rowid r)%Z) r tbl)
    as [pre [post [E1 E2]]].
  rewrite E2, Z.eqb_refl.
  rewrite filter_none in E1.
  - symmetry in E1. apply app_eq_nil in E1. destruct E1 as [-> ->].
    reflexivity.
  - intros x Hx. apply Z.eqb_neq. now apply H.
Qed.

Lemma delete_rowid_In (k : Z) (x : annotation_row)
      (tbl : list annotation_row) :
  In x (delete_rowid k tbl) <-> In x tbl /\ rowid x <> k.
Proof.
  unfold delete_rowid. rewrite filter_In, negb_true_iff, Z.eqb_neq.
  reflexivity.
Qed.

(** The other rows stay as they were. *)
Lemma delete_rowid_insert (r : annotation_row) (tbl : list annotation_row) :
  delete_rowid (rowid r) (insert_row r (delete_rowid (rowid r) tbl))
    = delete_rowid (rowid r) tbl.
Proof.
  unfold delete_rowid at 1.
  destruct (insert_row_filter (fun x => negb (rowid x =? rowid r)%Z) r
              (delete_rowid (rowid r) tbl)) as [pre [post [E1 E2]]].
  rewrite E2, Z.eqb_refl. simpl. rewrite <- E1.
  apply filter_all. intros x Hx. apply delete_rowid_In in Hx.
  apply negb_true_iff, Z.eqb_neq, Hx.
Qed.

Lemma filter_length_split {A : Type} (f : A -> bool) (l : list A) :
  List.length l
    = (List.length (filter f l)
       + List.length (filter (fun x => negb (f x)) l))%nat.
Proof.
  induction l as [|x l IH]; simpl; [reflexivity|].
  destruct (f x); simpl; lia.
Qed.

Lemma fold_max_ge (l : list Z) : forall a : Z,
  (a <= fold_left Z.max l a)%Z /\
  (forall x, In x l -> (x <= fold_left Z.max l a)%Z).
Proof.
  induction l as [|y l IH]; intros a; simpl.
  - split; [lia | intros x []].
  - destruct (IH (Z.max a y)) as [H1 H2]. split; [lia|].
    intros x [<-|Hx]; [lia | now apply H2].
Qed.

(** The rowid of an inserted row is above every rowid of the table. *)
Lemma new_rowid_above (tbl : list annotation_row) (x : annotation_row) :
  In x tbl -> (rowid x < new_rowid tbl)%Z.
Proof.
  intros H. unfold new_rowid.
  apply (in_map rowid) in H.
  destruct (map rowid tbl) as [|r rs]; [destruct H|].
  destruct (fold_max_ge rs r) as [H1 H2].
  destruct H as [<-|H]; [lia|]. specialize (H2 _ H). lia.
Qed.

Lemma new_rowid_fresh (tbl : list annotation_row) (x : annotation_row) :
  In x tbl -> rowid x <> new_rowid tbl.
Proof. intros H. pose proof (new_rowid_above tbl x H). lia. Qed.

Lemma tuples_at_select (k : Z) (tbl : list annotation_row) (s : string) :
  tuples_at k (select_annotations tbl s)
    = map row_tuple (filter (fun r => set_name r =? s) (rows_at k tbl)).
Proof.
  unfold tuples_at, select_annotations, rows_at.
  induction tbl as [|x tbl IH]; simpl; [reflexivity|].
  destruct (set_name x =? s) eqn:Es; destruct (rowid x =? k)%Z eqn:Ek;
    simpl; rewrite ?Es, ?Ek; simpl; now rewrite IH.
Qed.

(** *** The order of the table *)

Lemma insert_row_order (r : annotation_row) (tbl : list annotation_row) :
  rowid_order tbl ->
  (forall x, In x tbl -> rowid x <> rowid r) ->
  rowid_order (insert_row r tbl).
Proof.
  unfold rowid_order.
  induction tbl as [|x tbl IH]; intros Hs Hne; simpl.
  - repeat constructor.
  - inversion Hs as [|? ? Hs' Hall]; subst.
    destruct (Z.ltb_spec (rowid r) (rowid x)) as [Hlt|Hge]; simpl.
    + constructor; [exact Hs|]. constructor; [exact Hlt|].
      rewrite Forall_forall in *. intros y Hy. specialize (Hall y Hy). lia.
    + constructor.
      * apply IH; [exact Hs'|]. intros y Hy. apply Hne. now right.
      * rewrite Forall_forall in *. intros y Hy.
        apply in_map_iff in Hy. destruct Hy as [z [<- Hz]].
        apply insert_row_In in Hz. destruct Hz as [->|Hz].
        -- specialize (Hne x (or_introl eq_refl)). lia.
        -- apply Hall. now apply in_map.
Qed.

Lemma filter_order (f : annotation_row -> bool) (tbl : list annotation_row) :
  rowid_order tbl -> rowid_order (filter f tbl).
Proof.
  unfold rowid_order.
  induction tbl as [|x tbl IH]; intros Hs; simpl; [constructor|].
  inversion Hs as [|? ? Hs' Hall]; subst.
  destruct (f x); simpl; [|now apply IH].
  constructor; [now apply IH|].
  rewrite Forall_forall in *. intros y Hy.
  apply in_map_iff in Hy. destruct Hy as [z [<- Hz]].
  apply filter_In in Hz. apply Hall, in_map, Hz.
Qed.

Lemma order_NoDup (tbl : list annotation_row) :
  rowid_order tbl -> NoDup (map rowid tbl).
Proof.
  unfold rowid_order. induction (map rowid tbl) as [|k ks IH]; intros Hs.
  - constructor.
  - inversion Hs as [|? ? Hs' Hall]; subst. constructor; [|now apply IH].
    intros Hin. rewrite Forall_forall in Hall. specialize (Hall k Hin). lia.
Qed.

Lemma insert_annotation_order (tbl : list annotation_row)
      (s : string) (st en : Z) (m : string) :
  rowid_order tbl -> rowid_order (fst (insert_annotation tbl s st en m)).
Proof.
  intros H. unfold insert_annotation. simpl.
  apply insert_row_order; [exact H|]. simpl. apply new_rowid_fresh.
Qed.

Lemma put_row_order (r : annotation_row) (tbl : list annotation_row) :
  rowid_order tbl ->
  rowid_order (insert_row r (delete_rowid (rowid r) tbl)).
Proof.
  intros H. apply insert_row_order.
  - now apply filter_order.
  - intros x Hx. apply delete_rowid_In in Hx. apply Hx.
Qed.

Lemma replace_annotation_order (t2i : string -> option Z)
      (tbl tbl' : list annotation_row) (k : sqlval)
      (s : string) (st en : Z) (m : string) (last : Z) :
  rowid_order tbl ->
  replace_annotation t2i tbl k s st en m = Ok (tbl', last) ->
  rowid_order tbl'.
Proof.
  intros H E. destruct k as [|z|t]; simpl in E.
  - injection E as <- _. now apply insert_row_order; [|apply new_rowid_fresh].
  - injection E as <- _. apply (put_row_order (mk_annotation z s st en m) _ H).
  - destruct (t2i t) as [z|]; [|discriminate].
    injection E as <- _. apply (put_row_order (mk_annotation z s st en m) _ H).
Qed.

End AnnotationTable.

(** ** Dictionaries and their JSON text *)

Module PyDictFacts.
Import PyDict.

Lemma contains_get (k : string) (d : dict) :
  contains k d = false <-> get k d = None.
Proof.
  induction d as [|[k' v] d IH]; simpl; [tauto|].
  destruct (k' =? k); simpl; [|exact IH]. split; discriminate.
Qed.

Lemma get_contains (k : string) (d : dict) (v : pyval) :
  get k d = Some v -> contains k d = true.
Proof.
  intros H. destruct (contains k d) eqn:E; [reflexivity|].
  apply contains_get in E. congruence.
Qed.

Lemma setitem_new (k : string) (v : pyval) (d : dict) :
  contains k d = false -> setitem k v d = (d ++ [(k, v)])%list.
Proof.
  induction d as [|[k' v'] d IH]; simpl; intros H; [reflexivity|].
  apply orb_false_iff in H. destruct H as [H1 H2].
  now rewrite H1, IH.
Qed.

Lemma setitem_same (k : string) (v : pyval) (d : dict) :
  get k d = Some v -> setitem k v d = d.
Proof.
  induction d as [|[k' v'] d IH]; simpl; intros H; [discriminate|].
  destruct (k' =? k); [congruence | now rewrite IH].
Qed.

Lemma get_setitem (k : string) (v : pyval) (d : dict) :
  get k (setitem k v d) = Some v.
Proof.
  induction d as [|[k' v'] d IH]; simpl.
  - now rewrite String.eqb_refl.
  - destruct (k' =? k) eqn:E; simpl; now rewrite E.
Qed.

Lemma get_setitem_other (k k' : string) (v : pyval) (d : dict) :
  k' <> k -> get k' (setitem k v d) = get k' d.
Proof.
  intros Hk. induction d as [|[k0 v0] d IH]; simpl.
  - apply String.eqb_neq in Hk. now rewrite String.eqb_sym, Hk.
  - destruct (String.eqb_spec k0 k) as [->|]; simpl.
    + apply String.eqb_neq in Hk. now rewrite String.eqb_sym, Hk.
    + now rewrite IH.
Qed.

End PyDictFacts.

Module JsonFacts.
Import PyStr PyStrFacts Json.

Lemma dumps_dict (d : dict) :
  dumps (PDict d) = "{" ++ sep_join ", " (map item d) ++ "}".
Proof.
  simpl. do 3 f_equal. apply map_ext. now intros [k x].
Qed.

Lemma sep_join_snoc (s x : string) (l : list string) :
  sep_join s (l ++ [x])
    = sep_join s l ++ match l with [] => "" | _ => s end ++ x.
Proof.
  induction l as [|y l IH]; [reflexivity|].
  destruct l as [|z l].
  - reflexivity.
  - change (sep_join s ((y :: z :: l) ++ [x]))
      with (y ++ s ++ sep_join s ((z :: l) ++ [x])).
    rewrite IH.
    change (sep_join s (y :: z :: l)) with (y ++ s ++ sep_join s (z :: l)).
    now rewrite !append_assoc.
Qed.

(** The text of a dict with one more entry: the text of the dict with
    the entry put before the closing brace. *)
Lemma dumps_dict_snoc (d : dict) (kv : string * pyval) :
  dumps (PDict (d ++ [kv]))
    = "{" ++ sep_join ", " (map item d)
          ++ match d with [] => "" | _ => ", " end ++ item kv ++ "}".
Proof.
  rewrite dumps_dict, map_app. simpl map. rewrite sep_join_snoc.
  rewrite !append_assoc. do 2 f_equal. now destruct d.
Qed.

Lemma dumps_dict_snoc_longer (d : dict) (kv : string * pyval) :
  (String.length (dumps (PDict d))
   < String.length (dumps (PDict (d ++ [kv]))))%nat.
Proof.
  rewrite dumps_dict_snoc, dumps_dict. rewrite !length_append.
  unfold item, encode_basestring_ascii. simpl String.length.
  rewrite !length_append. simpl. lia.
Qed.

End JsonFacts.

(** ** [storeAnnotation] *)

Section StoreFacts.
Import Sqlite SqliteFacts AnnotationTable PyDictFacts JsonFacts.

Variable text_to_integer : string -> option Z.

Lemma storeAnnotation_new_eq (p : Project) (s : string) (rg : Range) :
  PyDict.contains "rowid" (metadata rg) = false ->
  let k := new_rowid (annotations (db p)) in
  storeAnnotation text_to_integer p s rg
    = Ok (with_annotations p (insert_row (stored_row k s rg) (annotations (db p))),
          {| start := start rg;
             end_ := end_ rg;
             metadata := (metadata rg ++ [("rowid", PInt k)])%list |}).
Proof.
  intros H k. unfold storeAnnotation, store_execute.
  rewrite H. simpl. now rewrite setitem_new.
Qed.

Lemma storeAnnotation_existing_eq (p : Project) (s : string) (rg : Range)
      (k : Z) :
  PyDict.get "rowid" (metadata rg) = Some (PInt k) ->
  storeAnnotation text_to_integer p s rg
    = Ok (with_annotations p
            (insert_row (stored_row k s rg)
                        (delete_rowid k (annotations (db p)))),
          rg).
Proof.
  intros H. unfold storeAnnotation, store_execute, PyDict.getitem.
  rewrite (get_contains _ _ _ H), H. simpl.
  rewrite (setitem_same _ _ _ H). now destruct rg.
Qed.

(** Whatever the branch, the statement leaves the row of the range at
    [lastrowid], over rows of the old table that hold other rowids. *)
Lemma store_execute_shape (tbl tbl' : list annotation_row) (s : string)
      (rg : Range) (last : Z) :
  store_execute text_to_integer tbl s rg = Ok (tbl', last) ->
  exists base : list annotation_row,
    tbl' = insert_row (stored_row last s rg) base /\
    (forall x, In x base -> In x tbl /\ rowid x <> last) /\
    (rowid_order tbl -> rowid_order base).
Proof.
  unfold store_execute.
  assert (forall z, exists base : list annotation_row,
               insert_row (stored_row z s rg) (delete_rowid z tbl)
                 = insert_row (stored_row z s rg) base /\
               (forall x, In x base -> In x tbl /\ rowid x <> z) /\
               (rowid_order tbl -> rowid_order base)) as Hput.
  { intros z. exists (delete_rowid z tbl). split; [reflexivity|]. split.
    - intros x Hx. now apply delete_rowid_In.
    - apply filter_order. }
  assert (exists base : list annotation_row,
             insert_row (stored_row (new_rowid tbl) s rg) tbl
               = insert_row (stored_row (new_rowid tbl) s rg) base /\
             (forall x, In x base -> In x tbl /\ rowid x <> new_rowid tbl) /\
             (rowid_order tbl -> rowid_order base)) as Hnew.
  { exists tbl. split; [reflexivity|]. split; [|tauto].
    intros x Hx. split; [exact Hx | now apply new_rowid_fresh]. }
  destruct (PyDict.contains "rowid" (metadata rg)).
  - unfold PyDict.getitem.
    destruct (PyDict.get "rowid" (metadata rg)) as [v|]; [|discriminate].
    simpl. destruct v as [|b|z|t|l|d]; simpl; try discriminate.
    + intros E. injection E as <- <-. exact Hnew.
    + intros E. injection E as <- <-. apply Hput.
    + intros E. injection E as <- <-. apply Hput.
    + destruct (text_to_integer t) as [z|]; [|discriminate].
      intros E. injection E as <- <-. apply Hput.
  - intros E. injection E as <- <-. exact Hnew.
Qed.

(** [storeAnnotation] keeps the table in rowid order. *)
Lemma storeAnnotation_order (p p' : Project) (s : string) (rg rg' : Range) :
  rowid_order (annotations (db p)) ->
  storeAnnotation text_to_integer p s rg = Ok (p', rg') ->
  rowid_order (annotations (db p')).
Proof.
  intros Ho. unfold storeAnnotation.
  destruct (store_execute _ _ _ _) as [[tbl last]|e] eqn:E; [|discriminate].
  simpl. intros H. injection H as <- _. simpl.
  destruct (store_execute_shape _ _ _ _ _ E) as [base [-> [Hb Hob]]].
  apply insert_row_order; [now apply Hob|].
  intros x Hx. apply (Hb x Hx).
Qed.

Lemma storeAll_order (calls : list (string * Range)) :
  forall p p' : Project,
    rowid_order (annotations (db p)) ->
    storeAll text_to_integer p calls = Ok p' ->
    rowid_order (annotations (db p')).
Proof.
  induction calls as [|[s rg] calls IH]; intros p p' Ho; simpl.
  - intros E. injection E as <-. exact Ho.
  - destruct (storeAnnotation text_to_integer p s rg) as [[p1 rg1]|e] eqn:E;
      [|discriminate].
    simpl. apply IH. exact (storeAnnotation_order _ _ _ _ _ Ho E).
Qed.

(** [storeAnnotation] leaves the options table and the folder alone. *)
Lemma storeAnnotation_options (p p' : Project) (s : string) (rg rg' : Range) :
  storeAnnotation text_to_integer p s rg = Ok (p', rg') ->
  options (db p') = options (db p) /\ projectFolder p' = projectFolder p.
Proof.
  unfold storeAnnotation.
  destruct (store_execute _ _ _ _) as [[tbl last]|e]; [|discriminate].
  simpl. intros H. injection H as <- _. split; reflexivity.
Qed.

Lemma tuples_at_single (p : Project) (k : Z) (r : annotation_row) :
  rows_at k (annotations (db p)) = [r] ->
  forall s : string,
    tuples_at k (getAnnotations p s)
      = if set_name r =? s then [row_tuple r] else [].
Proof.
  intros H s. unfold getAnnotations. rewrite tuples_at_select, H. simpl.
  now destruct (set_name r =? s).
Qed.

Lemma storeAnnotation_existing_rows (p : Project) (s : string) (rg : Range)
      (k : Z) :
  PyDict.get "rowid" (metadata rg) = Some (PInt k) ->
  exists p' : Project,
    storeAnnotation text_to_integer p s rg = Ok (p', rg) /\
    rows_at k (annotations (db p')) = [stored_row k s rg] /\
    delete_rowid k (annotations (db p'))
      = delete_rowid k (annotations (db p)).
Proof.
  intros H. eexists. split; [exact (storeAnnotation_existing_eq p s rg k H)|].
  simpl. split.
  - apply (rows_at_insert (stored_row k s rg)). simpl.
    intros x Hx. apply delete_rowid_In in Hx. apply Hx.
  - apply (delete_rowid_insert (stored_row k s rg)).
Qed.

(** C2.  Storing under [S] a range whose metadata has no [rowid] key
    adds one row to the annotations table, at a rowid [k] that no row
    held; the range leaves the call with [metadata['rowid'] = k] and
    nothing else changed, and [getAnnotations(S)] then has one row with
    the rowid [k], which carries the start and the end of the range. *)
Theorem storeAnnotation_inserts :
  forall (p : Project) (S : string) (rg : Range),
    PyDict.contains "rowid" (metadata rg) = false ->
    exists (k : Z) (p' : Project) (rg' : Range),
      storeAnnotation text_to_integer p S rg = Ok (p', rg') /\
      (forall x, In x (annotations (db p)) -> rowid x <> k) /\
      Permutation (annotations (db p'))
                  (stored_row k S rg :: annotations (db p)) /\
      rows_at k (annotations (db p')) = [stored_row k S rg] /\
      PyDict.get "rowid" (metadata rg') = Some (PInt k) /\
      start rg' = start rg /\
      end_ rg' = end_ rg /\
      (forall key : string,
          key <> "rowid" ->
          PyDict.get key (metadata rg') = PyDict.get key (metadata rg)) /\
      tuples_at k (getAnnotations p' S)
        = [(k, start rg, end_ rg, Json.dumps (PDict (metadata rg)))].
Proof.
  intros p S rg H.
  pose proof (storeAnnotation_new_eq p S rg H) as E. simpl in E.
  set (k := new_rowid (annotations (db p))) in *.
  assert (rows_at k (insert_row (stored_row k S rg) (annotations (db p)))
          = [stored_row k S rg]) as Hat.
  { apply (rows_at_insert (stored_row k S rg)). simpl.
    intros x Hx. now apply new_rowid_fresh. }
  eexists k, _, _. split; [exact E|]. simpl.
  split; [intros x Hx; now apply new_rowid_fresh|].
  split; [apply insert_row_perm|].
  split; [exact Hat|].
  split; [rewrite <- (setitem_new _ _ _ H); apply get_setitem|].
  split; [reflexivity|]. split; [reflexivity|].
  split.
  - intros key Hkey. rewrite <- (setitem_new _ _ _ H).
    now apply get_setitem_other.
  - rewrite (tuples_at_single _ k (stored_row k S rg)); [|exact Hat].
    simpl. now rewrite String.eqb_refl.
Qed.

(** C3.  Storing a range whose metadata holds the rowid [k] leaves one
    row at [k], the row of the range with its present start and end; the
    rows at other rowids stay, so a table that held one row at [k] keeps
    its size; [getAnnotations] has that one row at [k], under the set
    name of the call and under no other; and the range leaves the call
    as it entered it, [metadata['rowid']] still [k]. *)
Theorem storeAnnotation_replaces :
  forall (p : Project) (S : string) (rg : Range) (k : Z),
    PyDict.get "rowid" (metadata rg) = Some (PInt k) ->
    exists p' : Project,
      storeAnnotation text_to_integer p S rg = Ok (p', rg) /\
      rows_at k (annotations (db p')) = [stored_row k S rg] /\
      delete_rowid k (annotations (db p'))
        = delete_rowid k (annotations (db p)) /\
      (List.length (rows_at k (annotations (db p))) = 1%nat ->
       List.length (annotations (db p'))
         = List.length (annotations (db p))) /\
      tuples_at k (getAnnotations p' S)
        = [(k, start rg, end_ rg, Json.dumps (PDict (metadata rg)))] /\
      (forall S' : string,
          S' <> S -> tuples_at k (getAnnotations p' S') = []).
Proof.
  intros p S rg k H.
  destruct (storeAnnotation_existing_rows p S rg k H) as [p' [E [Hat Hrest]]].
  exists p'. split; [exact E|].
  split; [exact Hat|]. split; [exact Hrest|]. split; [|split].
  - intros Hone.
    rewrite (filter_length_split (fun r => (rowid r =? k)%Z)
                                 (annotations (db p'))).
    rewrite (filter_length_split (fun r => (rowid r =? k)%Z)
                                 (annotations (db p))).
    fold (rows_at k (annotations (db p'))) (rows_at k (annotations (db p))).
    fold (delete_rowid k (annotations (db p')))
         (delete_rowid k (annotations (db p))).
    now rewrite Hat, Hrest, Hone.
  - rewrite (tuples_at_single _ k (stored_row k S rg)); [|exact Hat].
    simpl. now rewrite String.eqb_refl.
  - intros S' HS.
    rewrite (tuples_at_single _ k (stored_row k S rg)); [|exact Hat].
    simpl. apply not_eq_sym, String.eqb_neq in HS. now rewrite HS.
Qed.

(** C4.  The first store of a range without a [rowid] key persists the
    JSON text of the metadata as it is before the rowid is written into
    it; the range then has the key, and storing it again persists, at
    the same rowid, the text with the entry of the rowid before the
    closing brace: a different text, though nothing else changed. *)
Theorem storeAnnotation_meta_text :
  forall (p : Project) (S : string) (rg : Range),
    PyDict.contains "rowid" (metadata rg) = false ->
    exists (k : Z) (p1 : Project) (rg1 : Range) (body : string),
      storeAnnotation text_to_integer p S rg = Ok (p1, rg1) /\
      Json.dumps (PDict (metadata rg)) = "{" ++ body ++ "}" /\
      rows_at k (annotations (db p1))
        = [mk_annotation k S (start rg) (end_ rg) ("{" ++ body ++ "}")] /\
      PyDict.contains "rowid" (metadata rg1) = true /\
      PyDict.get "rowid" (metadata rg1) = Some (PInt k) /\
      forall S' : string,
      exists p2 : Project,
        storeAnnotation text_to_integer p1 S' rg1 = Ok (p2, rg1) /\
        let meta2 := Json.dumps (PDict (metadata rg1)) in
        rows_at k (annotations (db p2))
          = [mk_annotation k S' (start rg) (end_ rg) meta2] /\
        meta2 = "{" ++ body
                    ++ match metadata rg with [] => "" | _ => ", " end
                    ++ Json.encode_basestring_ascii "rowid" ++ ": "
                    ++ Json.int_repr k ++ "}" /\
        meta2 <> "{" ++ body ++ "}".
Proof.
  intros p S rg H.
  pose proof (storeAnnotation_new_eq p S rg H) as E. simpl in E.
  set (k := new_rowid (annotations (db p))) in *.
  set (rg1 := {| start := start rg; end_ := end_ rg;
                 metadata := (metadata rg ++ [("rowid", PInt k)])%list |}) in *.
  set (p1 := with_annotations p _) in E.
  assert (PyDict.get "rowid" (metadata rg1) = Some (PInt k)) as Hget.
  { simpl. rewrite <- (setitem_new _ _ _ H). apply get_setitem. }
  exists k, p1, rg1, (PyStr.sep_join ", " (map Json.item (metadata rg))).
  split; [exact E|]. split; [apply dumps_dict|]. split.
  { rewrite <- dumps_dict.
    apply (rows_at_insert (stored_row k S rg)). simpl.
    intros x Hx. now apply new_rowid_fresh. }
  split; [now apply (get_contains _ _ (PInt k))|]. split; [exact Hget|].
  intros S'.
  destruct (storeAnnotation_existing_rows p1 S' rg1 k Hget)
    as [p2 [E2 [Hat2 _]]].
  exists p2. split; [exact E2|]. split; [exact Hat2|]. split.
  - simpl metadata. rewrite dumps_dict_snoc. unfold Json.item. simpl fst.
    simpl snd. simpl Json.dumps at 1. now rewrite !PyStrFacts.append_assoc.
  - rewrite <- dumps_dict. intros Heq.
    pose proof (dumps_dict_snoc_longer (metadata rg) ("rowid", PInt k)) as Hl.
    simpl metadata in Heq. rewrite Heq in Hl. lia.
Qed.

End StoreFacts.

(** ** [getAnnotations] and [getAnnotationSetNames] *)

Section ReadFacts.
Import Sqlite SqliteFacts AnnotationTable PyDictFacts.

Variable text_to_integer : string -> option Z.

Lemma getAnnotations_In (p : Project) (S : string) (t : Z * Z * Z * string) :
  In t (getAnnotations p S) <->
  exists row : annotation_row,
    In row (annotations (db p)) /\ set_name row = S /\ t = row_tuple row.
Proof.
  unfold getAnnotations, select_annotations. rewrite in_map_iff. split.
  - intros [row [<- Hrow]]. apply filter_In in Hrow.
    destruct Hrow as [H1 H2]. apply String.eqb_eq in H2. eauto.
  - intros [row [H1 [H2 ->]]]. exists row. split; [reflexivity|].
    apply filter_In. split; [exact H1 | now apply String.eqb_eq].
Qed.

Lemma getAnnotations_NoDup (p : Project) (S : string) :
  rowid_order (annotations (db p)) -> NoDup (getAnnotations p S).
Proof.
  intros Ho. unfold getAnnotations, select_annotations.
  apply (filter_order (fun r => set_name r =? S)) in Ho.
  apply order_NoDup in Ho.
  apply (NoDup_map_inv (fun t : Z * Z * Z * string => fst (fst (fst t)))).
  rewrite map_map. exact Ho.
Qed.

Lemma storeAnnotation_stored (p p' : Project) (S : string) (rg rg' : Range) :
  storeAnnotation text_to_integer p S rg = Ok (p', rg') ->
  exists k : Z, In (stored_row k S rg) (annotations (db p')).
Proof.
  unfold storeAnnotation.
  destruct (store_execute _ _ _ _) as [[tbl last]|e] eqn:E; [|discriminate].
  simpl. intros H. injection H as <- _. simpl.
  destruct (store_execute_shape _ _ _ _ _ _ E) as [base [-> _]].
  exists last. apply insert_row_In. now left.
Qed.

(** C8.  [getAnnotations(S)] holds the tuple [(rowid, start, end, meta)]
    of every row of the annotations table whose set name is [S] and
    nothing else, each row once (no rowid is held twice in a table in
    rowid order); [meta] is the stored text: for a range just stored
    under [S] it is the text [json.dumps] gave, not a decoded mapping. *)
Theorem getAnnotations_rows :
  forall (p : Project) (S : string),
    (forall t : Z * Z * Z * string,
        In t (getAnnotations p S) <->
        exists row : annotation_row,
          In row (annotations (db p)) /\ set_name row = S /\
          t = (rowid row, row_start row, row_end row, meta row)) /\
    (rowid_order (annotations (db p)) -> NoDup (getAnnotations p S)) /\
    (forall (p0 : Project) (rg rg' : Range),
        storeAnnotation text_to_integer p0 S rg = Ok (p, rg') ->
        exists k : Z,
          In (k, start rg, end_ rg, Json.dumps (PDict (metadata rg)))
             (getAnnotations p S)).
Proof.
  intros p S. split; [|split].
  - intros t. apply getAnnotations_In.
  - apply getAnnotations_NoDup.
  - intros p0 rg rg' E.
    destruct (storeAnnotation_stored _ _ _ _ _ E) as [k Hk].
    exists k. apply getAnnotations_In. exists (stored_row k S rg).
    split; [exact Hk|]. split; reflexivity.
Qed.

Lemma existsb_eqb_In (x : string) (seen : list string) :
  existsb (String.eqb x) seen = true <-> In x seen.
Proof.
  rewrite existsb_exists. split.
  - intros [y [Hy E]]. apply String.eqb_eq in E. now subst.
  - intros H. exists x. split; [exact H | apply String.eqb_refl].
Qed.

Lemma distinct_In (l : list string) : forall (seen : list string) (s : string),
  In s (distinct seen l) <-> In s l /\ ~ In s seen.
Proof.
  induction l as [|x l IH]; intros seen s; simpl; [tauto|].
  destruct (existsb (String.eqb x) seen) eqn:E.
  - apply existsb_eqb_In in E. rewrite IH. split.
    + intros [H1 H2]. tauto.
    + intros [[->|H1] H2]; tauto.
  - assert (~ In x seen) as Hx.
    { intros H. apply existsb_eqb_In in H. congruence. }
    simpl. rewrite IH. simpl. split.
    + intros [->|[H1 H2]]; tauto.
    + intros [[->|H1] H2]; [now left|].
      destruct (string_dec x s) as [->|Hne]; [now left|]. right. tauto.
Qed.

Lemma distinct_NoDup (l : list string) : forall seen : list string,
  NoDup (distinct seen l).
Proof.
  induction l as [|x l IH]; intros seen; simpl; [constructor|].
  destruct (existsb (String.eqb x) seen); [apply IH|].
  constructor; [|apply IH].
  rewrite distinct_In. simpl. tauto.
Qed.

Lemma getAnnotationSetNames_In (p : Project) (s : string) :
  In s (getAnnotationSetNames p) <->
  exists row : annotation_row, In row (annotations (db p)) /\ set_name row = s.
Proof.
  unfold getAnnotationSetNames, select_distinct_set_name.
  rewrite distinct_In, in_map_iff. simpl. split.
  - intros [[row [H1 H2]] _]. eauto.
  - intros [row [H1 H2]]. split; [eauto | tauto].
Qed.

(** One more stored range that was not stored before: one more name. *)
Lemma getAnnotationSetNames_new (p : Project) (S : string) (rg : Range) :
  is_new rg ->
  exists (p' : Project) (rg' : Range),
    storeAnnotation text_to_integer p S rg = Ok (p', rg') /\
    forall s : string,
      In s (getAnnotationSetNames p') <->
      s = S \/ In s (getAnnotationSetNames p).
Proof.
  intros H. eexists _, _.
  split; [exact (storeAnnotation_new_eq text_to_integer p S rg H)|].
  intros s. rewrite !getAnnotationSetNames_In. simpl. split.
  - intros [row [H1 H2]]. apply insert_row_In in H1.
    destruct H1 as [->|H1]; [now left | right; eauto].
  - intros [->|[row [H1 H2]]].
    + eexists. split; [apply insert_row_In; left; reflexivity | reflexivity].
    + exists row. split; [apply insert_row_In; now right | exact H2].
Qed.

Lemma storeAll_names (calls : list (string * Range)) : forall p : Project,
  Forall (fun c => is_new (snd c)) calls ->
  exists p' : Project,
    storeAll text_to_integer p calls = Ok p' /\
    forall s : string,
      In s (getAnnotationSetNames p') <->
      In s (getAnnotationSetNames p) \/ In s (map fst calls).
Proof.
  induction calls as [|[S rg] calls IH]; intros p Hnew; simpl.
  - exists p. split; [reflexivity | tauto].
  - inversion Hnew as [|? ? Hrg Hrest]; subst. simpl in Hrg.
    destruct (getAnnotationSetNames_new p S rg Hrg) as [p1 [rg1 [E Hn]]].
    rewrite E. simpl.
    destruct (IH p1 Hrest) as [p' [E' Hn']].
    exists p'. split; [exact E'|].
    intros s. rewrite Hn', Hn. intuition auto.
Qed.

(** C9.  [getAnnotationSetNames] holds every set name that a row of
    the annotations table has and no other, each once.  On a new
    project it is empty; after ranges that were not stored before are
    stored on a new project it holds the set names of the calls, so
    [set1] and [set2] after one range is stored under each. *)
Theorem getAnnotationSetNames_distinct :
  forall (dir : string) (calls : list (string * Range)),
    Forall (fun c => is_new (snd c)) calls ->
    (forall p : Project,
        NoDup (getAnnotationSetNames p) /\
        forall s : string,
          In s (getAnnotationSetNames p) <->
          exists row : annotation_row,
            In row (annotations (db p)) /\ set_name row = s) /\
    getAnnotationSetNames (Project_init dir None) = [] /\
    (exists p' : Project,
        storeAll text_to_integer (Project_init dir None) calls = Ok p' /\
        forall s : string,
          In s (getAnnotationSetNames p') <-> In s (map fst calls)) /\
    (forall rg1 rg2 : Range,
        is_new rg1 -> is_new rg2 ->
        exists p' : Project,
          storeAll text_to_integer (Project_init dir None)
                   [("set1", rg1); ("set2", rg2)] = Ok p' /\
          forall s : string,
            In s (getAnnotationSetNames p') <-> s = "set1" \/ s = "set2").
Proof.
  intros dir calls Hnew. split; [|split; [|split]].
  - intros p. split.
    + apply distinct_NoDup.
    + intros s. apply getAnnotationSetNames_In.
  - reflexivity.
  - destruct (storeAll_names calls (Project_init dir None) Hnew)
      as [p' [E Hn]].
    exists p'. split; [exact E|]. intros s. rewrite Hn. simpl. tauto.
  - intros rg1 rg2 H1 H2.
    destruct (storeAll_names [("set1", rg1); ("set2", rg2)]
                             (Project_init dir None)) as [p' [E Hn]].
    { repeat constructor; assumption. }
    exists p'. split; [exact E|]. intros s. rewrite Hn. simpl.
    intuition auto.
Qed.

End ReadFacts.

(** ** Instances on concrete projects *)

Lemma raw_codec_roundtrip : codec_roundtrip raw_codec.
Proof. intros v. reflexivity. Qed.

Lemma getValue_setValue_roundtrip_witness :
  codec_roundtrip raw_codec /\
  @getValue bytes raw_codec
    (@setValue bytes raw_codec (Project_init "/proj" None) "color"
               [Byte.x01; Byte.x02])
    "color" [] = [Byte.x01; Byte.x02].
Proof.
  split; [exact raw_codec_roundtrip|].
  apply (@getValue_setValue_roundtrip bytes raw_codec raw_codec_roundtrip).
Defined.

Lemma getValue_never_set_witness :
  ~ In "color" (map fst [("size", [Byte.x01])]) /\
  @getValue bytes raw_codec
    (@setValues bytes raw_codec (Project_init "/proj" None)
                [("size", [Byte.x01])])
    "color" [Byte.x07] = [Byte.x07].
Proof.
  assert (~ In "color" (map fst [("size", [Byte.x01])])) as H.
  { simpl. intros [H|[]]. discriminate H. }
  split; [exact H|].
  apply (@getValue_never_set bytes raw_codec); [|exact H].
  simpl. intros r [].
Defined.

Lemma setValue_last_write_wins_witness :
  codec_roundtrip raw_codec /\
  @getValue bytes raw_codec
    (@setValue bytes raw_codec
       (@setValue bytes raw_codec (Project_init "/proj" None) "color"
                  [Byte.x01])
       "color" [Byte.x02])
    "color" [] = [Byte.x02].
Proof.
  split; [exact raw_codec_roundtrip|].
  apply (@setValue_last_write_wins bytes raw_codec raw_codec_roundtrip
           (Project_init "/proj" None) "color" [Byte.x01] [Byte.x02] []).
Defined.

Lemma storeAnnotation_inserts_witness :
  PyDict.contains "rowid" (metadata header_range) = false /\
  exists (k : Z) (p' : Project) (rg' : Range),
    storeAnnotation no_text_rowid (Project_init "/proj" None) "set1" header_range
      = Ok (p', rg') /\
    PyDict.get "rowid" (metadata rg') = Some (PInt k) /\
    tuples_at k (getAnnotations p' "set1")
      = [(k, 3%Z, 9%Z, Json.dumps (PDict (metadata header_range)))].
Proof.
  split; [reflexivity|].
  destruct (storeAnnotation_inserts no_text_rowid (Project_init "/proj" None)
              "set1" header_range eq_refl)
    as [k [p' [rg' [E [_ [_ [_ [Hk [_ [_ [_ Ht]]]]]]]]]]].
  exists k, p', rg'. repeat split; assumption.
Defined.

Lemma storeAnnotation_replaces_witness :
  PyDict.get "rowid" (metadata header_range_stored) = Some (PInt 1) /\
  exists p' : Project,
    storeAnnotation no_text_rowid (Project_init "/proj" None) "set1"
                    header_range_stored = Ok (p', header_range_stored) /\
    tuples_at 1 (getAnnotations p' "set1")
      = [(1%Z, 4%Z, 12%Z, Json.dumps (PDict (metadata header_range_stored)))].
Proof.
  split; [reflexivity|].
  destruct (storeAnnotation_replaces no_text_rowid (Project_init "/proj" None)
              "set1" header_range_stored 1 eq_refl)
    as [p' [E [_ [_ [_ [Ht _]]]]]].
  exists p'. split; assumption.
Defined.

Lemma storeAnnotation_meta_text_witness :
  PyDict.contains "rowid" (metadata header_range) = false /\
  exists (k : Z) (p1 : Project) (rg1 : Range),
    storeAnnotation no_text_rowid (Project_init "/proj" None) "set1" header_range
      = Ok (p1, rg1) /\
    PyDict.contains "rowid" (metadata rg1) = true /\
    Json.dumps (PDict (metadata rg1))
      <> Json.dumps (PDict (metadata header_range)).
Proof.
  split; [reflexivity|].
  destruct (storeAnnotation_meta_text no_text_rowid (Project_init "/proj" None)
              "set1" header_range eq_refl)
    as [k [p1 [rg1 [body [E [Hd [_ [Hc [_ H2]]]]]]]]].
  exists k, p1, rg1. split; [exact E|]. split; [exact Hc|].
  destruct (H2 "set1") as [p2 [_ [_ [_ Hne]]]].
  rewrite Hd. exact Hne.
Defined.

Lemma getAnnotations_rows_witness :
  rowid_order (annotations (db (Project_init "/proj" None))) /\
  NoDup (getAnnotations (Project_init "/proj" None) "set1").
Proof.
  assert (rowid_order (annotations (db (Project_init "/proj" None)))) as H.
  { constructor. }
  split; [exact H|].
  apply (getAnnotations_rows no_text_rowid (Project_init "/proj" None) "set1").
  exact H.
Defined.

Lemma getAnnotationSetNames_distinct_witness :
  Forall (fun c => is_new (snd c))
         [("set1", header_range); ("set2", header_range)] /\
  exists p' : Project,
    storeAll no_text_rowid (Project_init "/proj" None)
             [("set1", header_range); ("set2", header_range)] = Ok p' /\
    forall s : string,
      In s (getAnnotationSetNames p') <-> In s ["set1"; "set2"].
Proof.
  assert (Forall (fun c : string * Range => is_new (snd c))
                 [("set1", header_range); ("set2", header_range)]) as H.
  { repeat constructor. }
  split; [exact H|].
  exact (proj1 (proj2 (proj2
           (getAnnotationSetNames_distinct no_text_rowid "/proj" _ H)))).
Defined.

(** * Further properties *)

(** ** More on paths *)

Module NormpathFacts.
Import PyStr PyStrFacts PosixPath PosixPathFacts.

Lemma split_cons (c : ascii) (s : string) :
  exists (x : string) (xs : list string), split c s = x :: xs.
Proof.
  induction s as [|a s IH]; simpl; [eauto|].
  destruct (Ascii.eqb a c); [eauto|].
  destruct IH as [x [xs ->]]. eauto.
Qed.

Lemma split_app_sep (c : ascii) (a b : string) :
  split c (a ++ String c b) = (split c a ++ split c b)%list.
Proof.
  induction a as [|x a IH]; simpl.
  - now rewrite Ascii.eqb_refl.
  - rewrite IH. destruct (Ascii.eqb x c); [reflexivity|].
    destruct (split_cons c a) as [y [ys ->]]. reflexivity.
Qed.

Lemma split_no_char (c : ascii) (x : string) :
  has_char c x = false -> split c x = [x].
Proof.
  induction x as [|a x IH]; simpl; intros H; [reflexivity|].
  apply orb_false_iff in H. destruct H as [H1 H2].
  rewrite Ascii.eqb_sym, H1, (IH H2). reflexivity.
Qed.

(** Splitting what was joined gives the components back. *)
Lemma split_sep_join (cs : list string) :
  cs <> [] -> Forall clean cs -> split "/"%char (sep_join sep cs) = cs.
Proof.
  induction cs as [|x cs IH]; intros Hne Hc; [congruence|].
  inversion Hc as [|? ? [_ Hx] Hc']; subst.
  destruct cs as [|y cs].
  - simpl. now apply split_no_char.
  - change (sep_join sep (x :: y :: cs))
      with (x ++ String "/"%char (sep_join sep (y :: cs))).
    rewrite split_app_sep, (split_no_char _ _ Hx), IH; [reflexivity| |exact Hc'].
    discriminate.
Qed.

Lemma plain_clean (c : string) : plain c = true -> clean c.
Proof.
  unfold plain, clean. intros H.
  repeat (apply andb_true_iff in H; destruct H as [H ?]).
  split; now apply negb_true_iff.
Qed.

Lemma normpath_step_plain (i : nat) (acc : list string) (c : string) :
  plain c = true -> normpath_step i acc c = (acc ++ [c])%list.
Proof.
  unfold plain, normpath_step. intros H.
  repeat (apply andb_true_iff in H; destruct H as [H ?]).
  repeat match goal with
         | X : negb _ = true |- _ => apply negb_true_iff in X
         end.
  assert ((c =? "") = false) as E.
  { destruct c; [discriminate | reflexivity]. }
  change curdir with "."; change pardir with "..".
  rewrite E. simpl orb.
  match goal with X : (c =? ".") = false |- _ => rewrite X end.
  match goal with X : (c =? "..") = false |- _ => rewrite X end.
  reflexivity.
Qed.

Lemma fold_step_plain (i : nat) (cs : list string) : forall acc : list string,
  forallb plain cs = true ->
  fold_left (normpath_step i) cs acc = (acc ++ cs)%list.
Proof.
  induction cs as [|c cs IH]; intros acc H; simpl.
  - now rewrite app_nil_r.
  - apply andb_true_iff in H. destruct H as [H1 H2].
    rewrite (normpath_step_plain _ _ _ H1), IH by exact H2.
    now rewrite <- app_assoc.
Qed.

(** For an absolute path the count of initial slashes plays no part in
    the loop. *)
Lemma normpath_step_abs (i j : nat) (acc : list string) (c : string) :
  i <> 0%nat -> j <> 0%nat -> normpath_step i acc c = normpath_step j acc c.
Proof.
  intros Hi Hj. unfold normpath_step.
  apply Nat.eqb_neq in Hi. apply Nat.eqb_neq in Hj. now rewrite Hi, Hj.
Qed.

Lemma norm_comps_abs (i j : nat) (s : string) :
  i <> 0%nat -> j <> 0%nat -> norm_comps i s = norm_comps j s.
Proof.
  intros Hi Hj. unfold norm_comps.
  generalize (@nil string). induction (split "/"%char s) as [|c l IH];
    intros acc; simpl; [reflexivity|].
  now rewrite (normpath_step_abs i j acc c Hi Hj), IH.
Qed.

Lemma removelast_incl {A : Type} (l : list A) (x : A) :
  In x (removelast l) -> In x l.
Proof.
  induction l as [|a l IH]; simpl; [tauto|].
  destruct l as [|b l]; [intros []|].
  intros [->|H]; [now left | right; now apply IH].
Qed.

Lemma normpath_step_clean (i : nat) (acc : list string) (c : string) :
  Forall clean acc -> has_char "/"%char c = false ->
  Forall clean (normpath_step i acc c).
Proof.
  intros Ha Hc. unfold normpath_step.
  destruct ((c =? "") || (c =? curdir)) eqn:E; [exact Ha|].
  apply orb_false_iff in E. destruct E as [E _].
  destruct (negb (c =? pardir) || _ || _).
  - apply Forall_app. split; [exact Ha|]. constructor; [|constructor].
    split; [|exact Hc]. destruct c; [discriminate | reflexivity].
  - destruct acc as [|a acc]; [exact Ha|].
    apply Forall_forall. intros x Hx. apply removelast_incl in Hx.
    rewrite Forall_forall in Ha. now apply Ha.
Qed.

Lemma norm_comps_clean (i : nat) (s : string) : Forall clean (norm_comps i s).
Proof.
  unfold norm_comps.
  assert (forall l acc,
             Forall clean acc ->
             (forall x, In x l -> has_char "/"%char x = false) ->
             Forall clean (fold_left (normpath_step i) l acc)) as H.
  { induction l as [|c l IH]; intros acc Ha Hl; simpl; [exact Ha|].
    apply IH.
    - apply normpath_step_clean; [exact Ha|]. apply Hl. now left.
    - intros x Hx. apply Hl. now right. }
  apply H; [constructor|]. intros x. apply split_no_sep.
Qed.

Lemma filter_clean (l : list string) :
  Forall clean l -> filter (fun x => negb (is_empty x)) l = l.
Proof.
  induction 1 as [|x l [Hx _] Hl IH]; simpl; [reflexivity|].
  now rewrite Hx, IH.
Qed.

Lemma components_sep_join (l : list string) :
  Forall clean l -> components (sep_join sep l) = l.
Proof.
  intros H. unfold components. destruct l as [|x l]; [reflexivity|].
  rewrite split_sep_join; [now apply filter_clean | discriminate | exact H].
Qed.

(** The components of the normal form of an absolute path are the
    components the loop of [normpath] leaves. *)
Lemma components_normpath_abs (p : string) :
  isabs p = true -> components (normpath p) = norm_comps 1 p.
Proof.
  intros Hp. unfold normpath.
  rewrite (isabs_not_empty _ Hp). cbv zeta.
  fold (norm_comps (initial_slashes p) p).
  assert (initial_slashes p = 1%nat \/ initial_slashes p = 2%nat) as Hi.
  { unfold initial_slashes. unfold isabs in Hp. rewrite Hp.
    destruct (_ && _); auto. }
  rewrite (norm_comps_abs (initial_slashes p) 1 p) by lia.
  pose proof (norm_comps_clean 1 p) as Hc.
  set (L := norm_comps 1 p) in *.
  destruct Hi as [-> | ->]; simpl Nat.eqb; cbv iota.
  - change (repeat_str sep 1 ++ sep_join sep L)
      with (String "/"%char (sep_join sep L)).
    cbn [is_empty]. unfold components. cbn [split].
    rewrite Ascii.eqb_refl. cbn [filter is_empty negb].
    now apply components_sep_join.
  - change (repeat_str sep 2 ++ sep_join sep L)
      with (String "/"%char (String "/"%char (sep_join sep L))).
    cbn [is_empty]. unfold components. cbn [split].
    rewrite Ascii.eqb_refl. cbn [filter is_empty negb].
    now apply components_sep_join.
Qed.

Lemma commonprefix_app (l r : list string) :
  commonprefix l (l ++ r)%list = l.
Proof.
  induction l as [|x l IH]; simpl; [now destruct r|].
  now rewrite String.eqb_refl, IH.
Qed.

Lemma rel_list_app (l r : list string) : rel_list l (l ++ r)%list = r.
Proof.
  unfold rel_list. rewrite commonprefix_app, Nat.sub_diag. simpl.
  induction l as [|x l IH]; simpl; [reflexivity | exact IH].
Qed.

Lemma endswith_char_split (s : string) (c : ascii) :
  endswith_char s c = true -> exists g : string, s = g ++ String c "".
Proof.
  induction s as [|a s IH]; simpl; [discriminate|].
  destruct s as [|b s].
  - intros H. apply Ascii.eqb_eq in H. subst. now exists "".
  - intros H. destruct (IH H) as [g Hg]. exists (String a g).
    simpl. now rewrite <- Hg.
Qed.

Lemma norm_comps_app_sep (i : nat) (a b : string) :
  norm_comps i (a ++ String "/"%char b)
    = fold_left (normpath_step i) (split "/"%char b) (norm_comps i a).
Proof.
  unfold norm_comps. now rewrite split_app_sep, fold_left_app.
Qed.

Lemma isabs_app (a b : string) : isabs a = true -> isabs (a ++ b) = true.
Proof. apply startswith_app. Qed.

(** [join(F, *cs)] for plain components: the components of [F] in
    normal form, then [cs]. *)
Lemma norm_comps_join (F : string) (cs : list string) :
  isabs F = true -> forallb plain cs = true ->
  isabs (join F cs) = true /\
  norm_comps 1 (join F cs) = (norm_comps 1 F ++ cs)%list.
Proof.
  intros HF Hcs. destruct cs as [|c cs].
  - simpl. split; [exact HF | now rewrite app_nil_r].
  - assert (Forall clean (c :: cs)) as Hclean.
    { apply Forall_forall. intros x Hx. apply plain_clean.
      rewrite forallb_forall in Hcs. now apply Hcs. }
    inversion Hclean as [|? ? Hc Hrest]; subst.
    assert (split "/"%char (sep_join sep (c :: cs)) = c :: cs) as Hsplit.
    { apply split_sep_join; [discriminate | exact Hclean]. }
    assert (exists G tail : string,
               join F (c :: cs) = G ++ String "/"%char (sep_join sep (c :: cs))
               /\ join F (c :: cs) = F ++ tail
               /\ norm_comps 1 G = norm_comps 1 F) as [G [tail [EG [EF HG]]]].
    { assert (forall X : string,
                 is_empty X = false ->
                 join2 F c = X ++ c ->
                 join F (c :: cs) = X ++ sep_join sep (c :: cs)) as Hjoin.
      { intros X HX E.
        change (join F (c :: cs)) with (join (join2 F c) cs).
        destruct Hc as [Hc1 Hc2].
        rewrite join_sep_join; [| | |exact Hrest].
        - rewrite E. destruct cs as [|d cs]; [reflexivity|].
          change (sep_join sep ((X ++ c) :: d :: cs))
            with ((X ++ c) ++ sep ++ sep_join sep (d :: cs)).
          now rewrite append_assoc.
        - rewrite E. now apply is_empty_app.
        - rewrite E. rewrite endswith_char_app by exact Hc1.
          now apply no_char_endswith. }
      unfold join2 in Hjoin.
      destruct Hc as [Hc1 Hc2].
      rewrite (no_char_startswith _ _ Hc2 : startswith c sep = false) in Hjoin.
      rewrite (isabs_not_empty _ HF) in Hjoin. simpl orb in Hjoin.
      destruct (endswith_char F "/"%char) eqn:Eend.
      - destruct (endswith_char_split _ _ Eend) as [G HGF].
        pose proof (Hjoin F (isabs_not_empty _ HF) eq_refl) as HJ.
        exists G, (sep_join sep (c :: cs)).
        split; [|split; [exact HJ|]].
        + rewrite HJ. rewrite HGF. now rewrite append_assoc.
        + rewrite HGF. now rewrite norm_comps_app_sep.
      - assert (is_empty (F ++ sep) = false) as H1.
        { apply is_empty_app. reflexivity. }
        pose proof (Hjoin (F ++ sep) H1 (eq_sym (append_assoc F sep c))) as HJ.
        exists F, (sep ++ sep_join sep (c :: cs)).
        rewrite HJ. split; [|split; [|reflexivity]]; now rewrite append_assoc. }
    assert (isabs (join F (c :: cs)) = true) as HabsG.
    { rewrite EF. now apply isabs_app. }
    split; [exact HabsG|].
    rewrite EG, norm_comps_app_sep, Hsplit, HG.
    now apply fold_step_plain.
Qed.

Lemma startswith_head (c rest : string) :
  plain c = true -> startswith c ".." = false ->
  startswith (c ++ rest) ".." = false.
Proof.
  intros Hp Hs. unfold plain in Hp.
  repeat (apply andb_true_iff in Hp; destruct Hp as [Hp ?]).
  destruct c as [|a c]; [discriminate|].
  destruct c as [|b c].
  - simpl in *. destruct (Ascii.eqb a "."%char) eqn:E; [|reflexivity].
    apply Ascii.eqb_eq in E. subst. discriminate.
  - simpl in *. exact Hs.
Qed.

End NormpathFacts.

Section MorePaths.
Import PyStr PyStrFacts PosixPath PosixPathFacts NormpathFacts.

Lemma is_empty_iff (s : string) : is_empty s = true <-> s = "".
Proof. destruct s; simpl; split; congruence. Qed.

(** X1.  [getRelativePath] raises for the empty path and for no other:
    the exception is the [ValueError] of [os.path.relpath]. *)
Theorem getRelativePath_raises :
  forall (cwd : string) (self : Project) (P : string) (e : exn),
    getRelativePath cwd self P = Raise e <-> P = "" /\ e = ValueError.
Proof.
  intros cwd self P e. destruct (is_empty P) eqn:E.
  - apply is_empty_iff in E. subst. unfold getRelativePath, relpath. simpl.
    split.
    + intros H. injection H as <-. split; reflexivity.
    + intros [_ ->]. reflexivity.
  - rewrite (getRelativePath_unfold cwd self P _
               (relpath_text cwd P (projectFolder self) E)).
    split; [discriminate|]. intros [-> _]. discriminate.
Qed.

(** X2.  The project directory itself is shown as [.]. *)
Theorem getRelativePath_folder :
  forall (cwd : string) (self : Project),
    projectFolder self <> "" ->
    getRelativePath cwd self (projectFolder self) = Ok ".".
Proof.
  intros cwd self H.
  assert (is_empty (projectFolder self) = false) as E.
  { destruct (is_empty (projectFolder self)) eqn:E; [|reflexivity].
    apply is_empty_iff in E. contradiction. }
  rewrite (getRelativePath_unfold cwd self _ _
             (relpath_text cwd _ (projectFolder self) E)).
  pose proof (rel_list_app (components (abspath cwd (projectFolder self))) [])
    as Hr.
  rewrite app_nil_r in Hr. rewrite Hr. reflexivity.
Qed.

Lemma components_abspath_abs (cwd p : string) :
  isabs p = true -> components (abspath cwd p) = norm_comps 1 p.
Proof.
  intros H. unfold abspath. rewrite H. now apply components_normpath_abs.
Qed.

(** X3.  With an absolute project directory, a path made by
    [os.path.join] from the directory and plain components (no empty one,
    no slash inside, neither [.] nor [..]), the first of which does not
    begin with [..], is shown as these components joined by slashes. *)
Theorem getRelativePath_inside :
  forall (cwd : string) (self : Project) (c : string) (cs : list string),
    isabs (projectFolder self) = true ->
    forallb plain (c :: cs) = true ->
    startswith c ".." = false ->
    getRelativePath cwd self (join (projectFolder self) (c :: cs))
      = Ok (sep_join "/" (c :: cs)).
Proof.
  intros cwd self c cs HF Hplain Hc.
  destruct (norm_comps_join (projectFolder self) (c :: cs) HF Hplain)
    as [Habs Hn].
  set (P := join (projectFolder self) (c :: cs)) in *.
  rewrite (getRelativePath_unfold cwd self P _
             (relpath_text cwd P (projectFolder self) (isabs_not_empty _ Habs))).
  rewrite (components_abspath_abs cwd P Habs), Hn.
  rewrite (components_abspath_abs cwd _ HF), rel_list_app.
  change (rel_text (c :: cs)) with (sep_join sep (c :: cs)).
  assert (startswith (sep_join sep (c :: cs)) ".." = false) as Hs.
  { simpl in Hplain. apply andb_true_iff in Hplain. destruct Hplain as [Hp _].
    destruct cs as [|d cs].
    - exact Hc.
    - change (sep_join sep (c :: d :: cs))
        with (c ++ sep ++ sep_join sep (d :: cs)).
      now apply startswith_head. }
  now rewrite Hs.
Qed.

(** X4.  A path whose components do not begin with the components of
    the project directory comes back as it was given. *)
Theorem getRelativePath_outside :
  forall (cwd : string) (self : Project) (P : string),
    P <> "" ->
    (forall rest : list string,
        components (abspath cwd P)
          <> (components (abspath cwd (projectFolder self)) ++ rest)%list) ->
    getRelativePath cwd self P = Ok P.
Proof.
  intros cwd self P HP Hout.
  assert (is_empty P = false) as E.
  { destruct (is_empty P) eqn:E; [|reflexivity].
    apply is_empty_iff in E. contradiction. }
  rewrite (getRelativePath_unfold cwd self P _
             (relpath_text cwd P (projectFolder self) E)).
  destruct (rel_list_cases (components (abspath cwd (projectFolder self)))
                           (components (abspath cwd P))) as [[rest Hr]|Hr].
  - rewrite Hr.
    change (rel_text (pardir :: rest)) with (sep_join sep (pardir :: rest)).
    change ".." with pardir. now rewrite startswith_sep_join.
  - exfalso. exact (Hout _ Hr).
Qed.

Lemma norm_comps_trailing_slash (F : string) :
  norm_comps 1 (F ++ "/") = norm_comps 1 F.
Proof.
  change (F ++ "/") with (F ++ String "/"%char EmptyString).
  now rewrite norm_comps_app_sep.
Qed.

(** X5.  A slash at the end of an absolute project directory makes no
    difference: every path is shown as without it. *)
Theorem getRelativePath_trailing_slash :
  forall (cwd : string) (self self' : Project) (P : string),
    isabs (projectFolder self) = true ->
    projectFolder self' = projectFolder self ++ "/" ->
    getRelativePath cwd self' P = getRelativePath cwd self P.
Proof.
  intros cwd self self' P HF E.
  assert (isabs (projectFolder self') = true) as HF'.
  { rewrite E. now apply isabs_app. }
  unfold getRelativePath, relpath.
  rewrite (components_abspath_abs cwd _ HF'), (components_abspath_abs cwd _ HF).
  now rewrite E, norm_comps_trailing_slash.
Qed.

Lemma getRelativePath_folder_witness :
  projectFolder (Project_init "/home/u/proj" None) <> "" /\
  getRelativePath "/tmp" (Project_init "/home/u/proj" None) "/home/u/proj"
    = Ok ".".
Proof.
  assert (projectFolder (Project_init "/home/u/proj" None) <> "") as H.
  { discriminate. }
  split; [exact H|].
  exact (getRelativePath_folder "/tmp" (Project_init "/home/u/proj" None) H).
Defined.

Lemma getRelativePath_inside_witness :
  getRelativePath "/tmp" (Project_init "/home/u/proj/" None)
                  (join "/home/u/proj/" ["captures"; "..old"; "a.pcap"])
    = Ok "captures/..old/a.pcap".
Proof.
  exact (getRelativePath_inside "/tmp" (Project_init "/home/u/proj/" None)
           "captures" ["..old"; "a.pcap"] eq_refl eq_refl eq_refl).
Defined.

Lemma getRelativePath_outside_witness :
  getRelativePath "/tmp" (Project_init "/home/u/proj" None) "/home/u/other/x"
    = Ok "/home/u/other/x".
Proof.
  apply (getRelativePath_outside "/tmp" (Project_init "/home/u/proj" None)).
  - discriminate.
  - intros rest H. vm_compute in H. discriminate H.
Defined.

Lemma getRelativePath_trailing_slash_witness :
  getRelativePath "/tmp" (Project_init "/home/u/proj/" None) "/home/u/proj/a/b"
    = getRelativePath "/tmp" (Project_init "/home/u/proj" None)
                      "/home/u/proj/a/b".
Proof.
  exact (getRelativePath_trailing_slash "/tmp" (Project_init "/home/u/proj" None)
           (Project_init "/home/u/proj/" None) "/home/u/proj/a/b"
           eq_refl eq_refl).
Defined.

End MorePaths.

(** ** More on the options table *)

Section MoreKeyValue.
Import Sqlite SqliteFacts.

Context {pyobj : Type} {codec : Codec pyobj}.

Lemma setValues_app (p : Project) (l1 l2 : list (string * pyobj)) :
  setValues p (l1 ++ l2) = setValues (setValues p l1) l2.
Proof. unfold setValues. apply fold_left_app. Qed.

Lemma getValue_setValues_frame (calls : list (string * pyobj)) :
  forall (p : Project) (K : string) (D : pyobj),
    ~ In K (map fst calls) ->
    getValue (setValues p calls) K D = getValue p K D.
Proof.
  induction calls as [|[k v] calls IH]; intros p K D H; simpl; [reflexivity|].
  simpl in H. rewrite IH by tauto.
  apply getValue_setValue_other. intros ->. tauto.
Qed.

(** X6.  [setValue] calls on other keys leave what [getValue] returns
    for a key, stored value or default. *)
Theorem getValue_other_keys :
  forall (p : Project) (K : string) (D : pyobj)
         (calls : list (string * pyobj)),
    ~ In K (map fst calls) ->
    getValue (setValues p calls) K D = getValue p K D.
Proof. intros p K D calls. apply getValue_setValues_frame. Qed.

(** X7.  In any sequence of [setValue] calls, [getValue] returns the
    value of the last call on the key, whatever went before and whatever
    other keys were set after (with a codec that decodes what it
    encoded). *)
Theorem getValue_last_call :
  codec_roundtrip codec ->
  forall (p : Project) (K : string) (V D : pyobj)
         (before after : list (string * pyobj)),
    ~ In K (map fst after) ->
    getValue (setValues p (before ++ (K, V) :: after)) K D = V.
Proof.
  intros Hrt p K V D before after H.
  rewrite setValues_app. simpl.
  change (fold_left _ after ?q) with (setValues q after).
  rewrite getValue_setValues_frame by exact H.
  rewrite getValue_setValue_raw. apply Hrt.
Qed.

Lemma names_setValue (p : Project) (K : string) (V : pyobj) (n : string) :
  In n (map name (options (db (setValue p K V)))) <->
  n = K \/ In n (map name (options (db p))).
Proof.
  unfold setValue, with_options, replace_option. simpl.
  rewrite map_app. split.
  - intros H. apply in_app_or in H. destruct H as [H|H].
    + apply in_map_iff in H. destruct H as [r [<- Hr]].
      apply filter_In in Hr. right. apply in_map. tauto.
    + simpl in H. destruct H as [<-|[]]. now left.
  - intros [->|H]; apply in_or_app.
    + right. simpl. now left.
    + apply in_map_iff in H. destruct H as [r [<- Hr]].
      destruct (String.eqb_spec (name r) K) as [E|E].
      * right. simpl. left. now symmetry.
      * left. apply in_map. apply filter_In. split; [exact Hr|].
        apply negb_true_iff. now apply String.eqb_neq.
Qed.

(** X8.  The names the options table holds after a sequence of
    [setValue] calls are the names it held and the keys of the calls: no
    call removes the row of another key. *)
Theorem options_names :
  forall (p : Project) (calls : list (string * pyobj)) (n : string),
    In n (map name (options (db (setValues p calls)))) <->
    In n (map name (options (db p))) \/ In n (map fst calls).
Proof.
  intros p calls. revert p.
  induction calls as [|[k v] calls IH]; intros p n; simpl; [tauto|].
  change (fold_left _ calls ?q) with (setValues q calls).
  rewrite IH, names_setValue. intuition auto.
Qed.

(** X9.  What was committed is there when the project is opened again:
    [initDb] creates no table that exists, so the value set before is
    read back (with a codec that decodes what it encoded), the
    annotations and the set names are as they were, and a project opened
    on a directory without a database file has no annotation and gives
    the default for every key. *)
Theorem reopen_durable :
  codec_roundtrip codec ->
  forall (p : Project) (K : string) (V D : pyobj) (S : string),
    getValue (reopen (setValue p K V)) K D = V /\
    getAnnotations (reopen p) S = getAnnotations p S /\
    getAnnotationSetNames (reopen p) = getAnnotationSetNames p /\
    (forall K' : string, getValue (reopen p) K' D = getValue p K' D) /\
    (forall dir : string,
        getValue (Project_init dir None) K D = D /\
        getAnnotations (Project_init dir None) S = [] /\
        getAnnotationSetNames (Project_init dir None) = []).
Proof.
  intros Hrt p K V D S. split; [|repeat split].
  change (getValue (reopen (setValue p K V)) K D)
    with (getValue (setValue p K V) K D).
  rewrite getValue_setValue_raw. apply Hrt.
Qed.

(** X10.  The text the format-info container writes is the text the
    next [Project.__init__] on the directory loads the container from,
    whatever file name [write_file] was given; later texts replace
    earlier ones, and a project that was never written to loads the
    default grammar (with a codec that decodes what it encoded). *)
Theorem write_file_load_from_string :
  codec_roundtrip codec ->
  forall (py_str : string -> pyobj) (p : Project)
         (text text' fileName fileName' : string),
    load_from_string py_str (reopen (write_file py_str p text fileName))
      = py_str text /\
    load_from_string py_str
      (reopen (write_file py_str (write_file py_str p text fileName)
                          text' fileName'))
      = py_str text' /\
    (forall dir : string,
        load_from_string py_str (Project_init dir None)
          = py_str default_format_infos).
Proof.
  intros Hrt py_str p text text' fileName fileName'. split; [|split].
  - change (load_from_string py_str (reopen (write_file py_str p text fileName)))
      with (getValue (setValue p "format_infos" (py_str text)) "format_infos"
                     (py_str default_format_infos)).
    rewrite getValue_setValue_raw. apply Hrt.
  - unfold load_from_string, write_file.
    change (getValue (reopen ?q) ?k ?d) with (getValue q k d).
    rewrite getValue_setValue_raw. apply Hrt.
  - intros dir. reflexivity.
Qed.

End MoreKeyValue.

Lemma getValue_other_keys_witness :
  ~ In "color" (map fst [("size", [Byte.x01]); ("font", [Byte.x02])]) /\
  @getValue bytes raw_codec
    (@setValues bytes raw_codec
       (@setValue bytes raw_codec (Project_init "/proj" None) "color"
                  [Byte.x09])
       [("size", [Byte.x01]); ("font", [Byte.x02])])
    "color" []
  = @getValue bytes raw_codec
      (@setValue bytes raw_codec (Project_init "/proj" None) "color" [Byte.x09])
      "color" [].
Proof.
  assert (~ In "color" (map fst [("size", [Byte.x01]); ("font", [Byte.x02])]))
    as H.
  { simpl. intros [H|[H|[]]]; discriminate H. }
  split; [exact H|].
  exact (@getValue_other_keys bytes raw_codec _ "color" [] _ H).
Defined.

Lemma getValue_last_call_witness :
  codec_roundtrip raw_codec /\
  ~ In "color" (map fst [("size", [Byte.x01])]) /\
  @getValue bytes raw_codec
    (@setValues bytes raw_codec (Project_init "/proj" None)
       ([("color", [Byte.x03])] ++ ("color", [Byte.x04]) :: [("size", [Byte.x01])]))
    "color" []
  = [Byte.x04].
Proof.
  assert (~ In "color" (map fst [("size", [Byte.x01])])) as H.
  { simpl. intros [H|[]]. discriminate H. }
  split; [exact raw_codec_roundtrip|]. split; [exact H|].
  exact (@getValue_last_call bytes raw_codec raw_codec_roundtrip
           (Project_init "/proj" None) "color" [Byte.x04] []
           [("color", [Byte.x03])] [("size", [Byte.x01])] H).
Defined.

Lemma reopen_durable_witness :
  codec_roundtrip raw_codec /\
  @getValue bytes raw_codec
    (reopen (@setValue bytes raw_codec (Project_init "/proj" None) "color"
                       [Byte.x03]))
    "color" []
  = [Byte.x03].
Proof.
  split; [exact raw_codec_roundtrip|].
  exact (proj1 (@reopen_durable bytes raw_codec raw_codec_roundtrip
                  (Project_init "/proj" None) "color" [Byte.x03] [] "set1")).
Defined.

Lemma write_file_load_from_string_witness :
  codec_roundtrip raw_codec /\
  @load_from_string bytes raw_codec list_byte_of_string
    (reopen (@write_file bytes raw_codec list_byte_of_string
               (Project_init "/proj" None) "hdr struct {}" "unused.txt"))
  = list_byte_of_string "hdr struct {}".
Proof.
  split; [exact raw_codec_roundtrip|].
  exact (proj1 (@write_file_load_from_string bytes raw_codec
                  raw_codec_roundtrip list_byte_of_string
                  (Project_init "/proj" None) "hdr struct {}" "" "unused.txt" "")).
Defined.

(** ** More on [storeAnnotation] *)

Section MoreStore.
Import Sqlite SqliteFacts AnnotationTable PyDictFacts.

Variable text_to_integer : string -> option Z.

Lemma fold_max_in (l : list Z) : forall a : Z, In (fold_left Z.max l a) (a :: l).
Proof.
  induction l as [|y l IH]; intros a; simpl; [now left|].
  destruct (IH (Z.max a y)) as [H|H]; [|right; now right].
  rewrite <- H. destruct (Z.max_spec a y) as [[_ ->]|[_ ->]];
    [right; now left | now left].
Qed.

Lemma new_rowid_attained (tbl : list annotation_row) :
  tbl <> [] ->
  exists x : annotation_row, In x tbl /\ new_rowid tbl = (rowid x + 1)%Z.
Proof.
  intros H. unfold new_rowid.
  destruct tbl as [|r tbl]; [congruence|]. simpl map.
  pose proof (fold_max_in (map rowid tbl) (rowid r)) as Hin.
  change (rowid r :: map rowid tbl) with (map rowid (r :: tbl)) in Hin.
  apply in_map_iff in Hin. destruct Hin as [x [Hx Hin]].
  exists x. split; [exact Hin | now rewrite Hx].
Qed.

Lemma new_rowid_insert (r : annotation_row) (tbl : list annotation_row) :
  (forall x, In x tbl -> (rowid x < rowid r)%Z) ->
  new_rowid (insert_row r tbl) = (rowid r + 1)%Z.
Proof.
  intros H.
  destruct (new_rowid_attained (insert_row r tbl)) as [x [Hx E]].
  { intros E. pose proof (insert_row_length r tbl) as L.
    rewrite E in L. discriminate. }
  apply insert_row_In in Hx. destruct Hx as [->|Hx]; [exact E|].
  pose proof (new_rowid_above (insert_row r tbl) r) as Hr.
  specialize (Hr (proj2 (insert_row_In r r tbl) (or_introl eq_refl))).
  specialize (H x Hx). lia.
Qed.

Lemma delete_rowid_absent (k : Z) (tbl : list annotation_row) :
  (forall x, In x tbl -> rowid x <> k) -> delete_rowid k tbl = tbl.
Proof.
  intros H. apply filter_all. intros x Hx.
  apply negb_true_iff, Z.eqb_neq. now apply H.
Qed.

Lemma insert_row_filter_out (f : annotation_row -> bool) (r : annotation_row)
      (tbl : list annotation_row) :
  f r = false -> filter f (insert_row r tbl) = filter f tbl.
Proof.
  intros H. destruct (insert_row_filter f r tbl) as [pre [post [E1 E2]]].
  now rewrite E2, H, E1.
Qed.

(** X11.  Storing a range that was not stored before adds its tuple to
    the result of [getAnnotations] for its set name and changes nothing
    else: for every set name the tuples are the old ones, and the new one
    under the set name of the call. *)
Theorem storeAnnotation_new_frame :
  forall (p : Project) (S : string) (rg : Range),
    is_new rg ->
    exists (k : Z) (p' : Project) (rg' : Range),
      storeAnnotation text_to_integer p S rg = Ok (p', rg') /\
      forall (S' : string) (t : Z * Z * Z * string),
        In t (getAnnotations p' S') <->
        In t (getAnnotations p S') \/
        (S' = S /\
         t = (k, start rg, end_ rg, Json.dumps (PDict (metadata rg)))).
Proof.
  intros p S rg H.
  eexists (new_rowid (annotations (db p))), _, _.
  split; [exact (storeAnnotation_new_eq text_to_integer p S rg H)|].
  intros S' t. unfold getAnnotations, select_annotations. simpl.
  rewrite !in_map_iff. split.
  - intros [row [<- Hrow]]. apply filter_In in Hrow. destruct Hrow as [H1 H2].
    apply insert_row_In in H1. destruct H1 as [->|H1].
    + right. simpl in H2. apply String.eqb_eq in H2. subst. split; reflexivity.
    + left. exists row. split; [reflexivity|]. now apply filter_In.
  - intros [[row [<- Hrow]]|[-> ->]].
    + apply filter_In in Hrow. destruct Hrow as [H1 H2].
      exists row. split; [reflexivity|]. apply filter_In.
      split; [apply insert_row_In; now right | exact H2].
    + eexists. split; [|apply filter_In; split;
                         [apply insert_row_In; left; reflexivity|]].
      * reflexivity.
      * simpl. apply String.eqb_refl.
Qed.

(** X12.  Storing a range that has the rowid [k] changes no tuple at
    another rowid, in any set. *)
Theorem storeAnnotation_replace_frame :
  forall (p : Project) (S : string) (rg : Range) (k : Z),
    PyDict.get "rowid" (metadata rg) = Some (PInt k) ->
    exists p' : Project,
      storeAnnotation text_to_integer p S rg = Ok (p', rg) /\
      forall (S' : string) (t : Z * Z * Z * string),
        fst (fst (fst t)) <> k ->
        (In t (getAnnotations p' S') <-> In t (getAnnotations p S')).
Proof.
  intros p S rg k H.
  eexists. split; [exact (storeAnnotation_existing_eq text_to_integer p S rg k H)|].
  intros S' t Ht. unfold getAnnotations, select_annotations. simpl.
  rewrite !in_map_iff. split.
  - intros [row [<- Hrow]]. apply filter_In in Hrow. destruct Hrow as [H1 H2].
    apply insert_row_In in H1. destruct H1 as [->|H1].
    + simpl in Ht. congruence.
    + apply delete_rowid_In in H1. exists row. split; [reflexivity|].
      apply filter_In. tauto.
  - intros [row [<- Hrow]]. apply filter_In in Hrow. destruct Hrow as [H1 H2].
    exists row. split; [reflexivity|]. apply filter_In. split; [|exact H2].
    apply insert_row_In. right. apply delete_rowid_In. split; [exact H1|].
    exact Ht.
Qed.

(** X13.  Storing a range that has a rowid is idempotent: a second
    store of the same range under the same set name leaves the very same
    project and the very same range. *)
Theorem storeAnnotation_idempotent :
  forall (p : Project) (S : string) (rg : Range) (k : Z),
    PyDict.get "rowid" (metadata rg) = Some (PInt k) ->
    exists p' : Project,
      storeAnnotation text_to_integer p S rg = Ok (p', rg) /\
      storeAnnotation text_to_integer p' S rg = Ok (p', rg).
Proof.
  intros p S rg k H.
  eexists. split; [exact (storeAnnotation_existing_eq text_to_integer p S rg k H)|].
  rewrite (storeAnnotation_existing_eq text_to_integer _ S rg k H).
  unfold with_annotations. simpl.
  now rewrite (delete_rowid_insert (stored_row k S rg)).
Qed.

(** X14.  Two ranges that were not stored before, stored one after the
    other, get consecutive rowids; on a new project the first rowid
    given is 1. *)
Theorem storeAnnotation_consecutive :
  forall (p : Project) (S1 S2 : string) (rg1 rg2 : Range),
    is_new rg1 -> is_new rg2 ->
    exists (k : Z) (p1 p2 : Project) (rg1' rg2' : Range),
      storeAnnotation text_to_integer p S1 rg1 = Ok (p1, rg1') /\
      storeAnnotation text_to_integer p1 S2 rg2 = Ok (p2, rg2') /\
      PyDict.get "rowid" (metadata rg1') = Some (PInt k) /\
      PyDict.get "rowid" (metadata rg2') = Some (PInt (k + 1)) /\
      (annotations (db p) = [] -> k = 1%Z).
Proof.
  intros p S1 S2 rg1 rg2 H1 H2.
  set (k := new_rowid (annotations (db p))).
  eexists k, _, _, _, _.
  split; [exact (storeAnnotation_new_eq text_to_integer p S1 rg1 H1)|].
  split; [exact (storeAnnotation_new_eq text_to_integer _ S2 rg2 H2)|].
  simpl. split; [|split].
  - rewrite <- (setitem_new _ _ _ H1). apply get_setitem.
  - rewrite <- (setitem_new _ _ _ H2), get_setitem. do 2 f_equal.
    apply (new_rowid_insert (stored_row k S1 rg1)). simpl.
    intros x Hx. now apply new_rowid_above.
  - unfold k. now intros ->.
Qed.

(** X15.  A range whose rowid no row of the table holds is inserted at
    that rowid: the table has one row more, the row of the range. *)
Theorem storeAnnotation_unknown_rowid :
  forall (p : Project) (S : string) (rg : Range) (k : Z),
    PyDict.get "rowid" (metadata rg) = Some (PInt k) ->
    (forall x, In x (annotations (db p)) -> rowid x <> k) ->
    exists p' : Project,
      storeAnnotation text_to_integer p S rg = Ok (p', rg) /\
      Permutation (annotations (db p'))
                  (stored_row k S rg :: annotations (db p)).
Proof.
  intros p S rg k H Hk.
  eexists. split; [exact (storeAnnotation_existing_eq text_to_integer p S rg k H)|].
  simpl. rewrite (delete_rowid_absent _ _ Hk). apply insert_row_perm.
Qed.

(** X16.  The test is on the key, not on its value: a range whose
    metadata has the key [rowid] with the value [None] goes through the
    REPLACE statement with a NULL rowid, so it is stored as a new row at
    a rowid no row held, with the text [null] for the rowid in the stored
    metadata, and leaves the call with the rowid it was given. *)
Theorem storeAnnotation_rowid_None :
  forall (p : Project) (S : string) (rg : Range),
    PyDict.get "rowid" (metadata rg) = Some PNone ->
    exists (k : Z) (p' : Project) (rg' : Range),
      storeAnnotation text_to_integer p S rg = Ok (p', rg') /\
      (forall x, In x (annotations (db p)) -> rowid x <> k) /\
      Permutation (annotations (db p'))
                  (stored_row k S rg :: annotations (db p)) /\
      PyDict.get "rowid" (metadata rg') = Some (PInt k) /\
      start rg' = start rg /\ end_ rg' = end_ rg.
Proof.
  intros p S rg H.
  exists (new_rowid (annotations (db p))).
  unfold storeAnnotation, store_execute, PyDict.getitem.
  rewrite (get_contains _ _ _ H), H. simpl.
  eexists _, _. split; [reflexivity|]. simpl.
  split; [intros x Hx; now apply new_rowid_fresh|].
  split; [apply insert_row_perm|].
  split; [apply get_setitem|]. split; reflexivity.
Qed.

(** X17.  A rowid that is a list or a dict cannot be bound as a
    parameter: the call ends with the exception of the binding, and
    returns neither a project nor a range. *)
Theorem storeAnnotation_rowid_unsupported :
  forall (p : Project) (S : string) (rg : Range) (v : pyval),
    PyDict.get "rowid" (metadata rg) = Some v ->
    (exists l, v = PList l) \/ (exists d, v = PDict d) ->
    storeAnnotation text_to_integer p S rg = Raise ProgrammingError.
Proof.
  intros p S rg v H Hv.
  unfold storeAnnotation, store_execute, PyDict.getitem.
  rewrite (get_contains _ _ _ H), H.
  destruct Hv as [[l ->]|[d ->]]; reflexivity.
Qed.

Lemma storeAll_options (calls : list (string * Range)) :
  forall p p' : Project,
    storeAll text_to_integer p calls = Ok p' ->
    options (db p') = options (db p) /\ projectFolder p' = projectFolder p.
Proof.
  induction calls as [|[s rg] calls IH]; intros p p'; simpl.
  - intros E. injection E as <-. split; reflexivity.
  - destruct (storeAnnotation text_to_integer p s rg) as [[p1 rg1]|e] eqn:E;
      [|discriminate].
    simpl. intros E'. destruct (IH _ _ E') as [H1 H2].
    destruct (storeAnnotation_options text_to_integer _ _ _ _ _ E) as [H3 H4].
    split; congruence.
Qed.

(** X18.  No sequence of [storeAnnotation] calls, whatever the ranges,
    makes two rows share a rowid: in a table without a repeated rowid
    (as that of a new project), the rowids stay pairwise different, in the
    table and in every result of [getAnnotations]. *)
Theorem storeAll_unique_rowids :
  forall (p p' : Project) (calls : list (string * Range)),
    rowid_order (annotations (db p)) ->
    storeAll text_to_integer p calls = Ok p' ->
    NoDup (map rowid (annotations (db p'))) /\
    forall S : string,
      NoDup (map (fun t : Z * Z * Z * string => fst (fst (fst t)))
                 (getAnnotations p' S)).
Proof.
  intros p p' calls Ho E.
  pose proof (storeAll_order text_to_integer calls p p' Ho E) as Ho'.
  split; [now apply order_NoDup|].
  intros S. unfold getAnnotations, select_annotations. rewrite map_map.
  apply (order_NoDup (filter (fun r => set_name r =? S) (annotations (db p')))).
  now apply filter_order.
Qed.

(** X19.  [storeAnnotation] leaves the options alone: after any
    sequence of calls [getValue] returns what it returned, for every key
    and default, and the project directory is the same. *)
Theorem storeAll_keeps_options :
  forall (pyobj : Type) (codec : Codec pyobj) (p p' : Project)
         (calls : list (string * Range)) (K : string) (D : pyobj),
    storeAll text_to_integer p calls = Ok p' ->
    getValue p' K D = getValue p K D /\ projectFolder p' = projectFolder p.
Proof.
  intros pyobj codec p p' calls K D E.
  destruct (storeAll_options calls p p' E) as [H1 H2].
  split; [|exact H2]. unfold getValue. now rewrite H1.
Qed.

End MoreStore.

(** ** More on the reads *)

Section MoreReads.
Import Sqlite SqliteFacts AnnotationTable PyDictFacts.

Variable text_to_integer : string -> option Z.

(** X20.  A set name is listed by [getAnnotationSetNames] exactly when
    [getAnnotations] has something to return for it. *)
Theorem set_name_listed_iff_annotations :
  forall (p : Project) (s : string),
    In s (getAnnotationSetNames p) <-> getAnnotations p s <> [].
Proof.
  intros p s. rewrite (getAnnotationSetNames_In text_to_integer). split.
  - intros [row [H1 H2]] E.
    assert (In (row_tuple row) (getAnnotations p s)) as Hin.
    { apply getAnnotations_In. exists row. repeat split; assumption. }
    rewrite E in Hin. destruct Hin.
  - intros H. destruct (getAnnotations p s) as [|t l] eqn:E; [congruence|].
    assert (In t (getAnnotations p s)) as Hin by (rewrite E; now left).
    apply getAnnotations_In in Hin. destruct Hin as [row [H1 [H2 _]]].
    exists row. split; assumption.
Qed.

Lemma filter_or_perm {A : Type} (f g : A -> bool) (l : list A) :
  (forall x, In x l -> f x && g x = false) ->
  Permutation (filter (fun x => f x || g x) l) (filter f l ++ filter g l).
Proof.
  induction l as [|x l IH]; intros H; simpl; [constructor|].
  assert (Permutation (filter (fun x => f x || g x) l)
                      (filter f l ++ filter g l)) as IH'.
  { apply IH. intros y Hy. apply H. now right. }
  pose proof (H x (or_introl eq_refl)) as Hx.
  destruct (f x), (g x); simpl in *; try discriminate.
  - now constructor.
  - rewrite IH'. apply Permutation_middle.
  - exact IH'.
Qed.

Lemma concat_by_name (l : list annotation_row) (ns : list string) :
  NoDup ns ->
  Permutation
    (List.concat (map (fun n => filter (fun r => set_name r =? n) l) ns))
    (filter (fun r => existsb (String.eqb (set_name r)) ns) l).
Proof.
  induction 1 as [|n ns Hn Hns IH]; simpl.
  - rewrite filter_none; [constructor | reflexivity].
  - rewrite IH. symmetry. apply filter_or_perm.
    intros x _. destruct (String.eqb_spec (set_name x) n) as [E|E];
      [|reflexivity].
    simpl. destruct (existsb (String.eqb (set_name x)) ns) eqn:Ex;
      [|reflexivity].
    apply existsb_eqb_In in Ex. congruence.
Qed.

(** X21.  Going through the names [getAnnotationSetNames] returns and
    asking [getAnnotations] for each visits every row of the annotations
    table once: the results put together are the tuples of the table, up
    to their order. *)
Theorem annotations_partition :
  forall p : Project,
    Permutation
      (List.concat (map (getAnnotations p) (getAnnotationSetNames p)))
      (map row_tuple (annotations (db p))).
Proof.
  intros p. unfold getAnnotations, select_annotations.
  rewrite <- (map_map (fun n => filter (fun r => set_name r =? n)
                                       (annotations (db p)))
                      (map row_tuple)).
  rewrite <- List.concat_map. apply Permutation_map.
  rewrite concat_by_name by apply (distinct_NoDup text_to_integer).
  rewrite filter_all; [reflexivity|].
  intros x Hx. apply existsb_eqb_In.
  apply (getAnnotationSetNames_In text_to_integer p). exists x. split; [exact Hx | reflexivity].
Qed.

(** X22.  A stored range stored again under another set name moves:
    the first set has its annotations of before the two calls, the range
    is among those of the second set, and the names are those of before
    and the second. *)
Theorem storeAnnotation_moves :
  forall (p : Project) (S1 S2 : string) (rg : Range),
    is_new rg -> S1 <> S2 ->
    exists (k : Z) (p1 p2 : Project) (rg1 : Range),
      storeAnnotation text_to_integer p S1 rg = Ok (p1, rg1) /\
      storeAnnotation text_to_integer p1 S2 rg1 = Ok (p2, rg1) /\
      getAnnotations p2 S1 = getAnnotations p S1 /\
      In (k, start rg, end_ rg, Json.dumps (PDict (metadata rg1)))
         (getAnnotations p2 S2) /\
      (forall s : string,
          In s (getAnnotationSetNames p2) <->
          s = S2 \/ In s (getAnnotationSetNames p)).
Proof.
  intros p S1 S2 rg H Hne.
  pose proof (storeAnnotation_new_eq text_to_integer p S1 rg H) as E1.
  simpl in E1.
  set (k := new_rowid (annotations (db p))) in *.
  set (rg1 := {| start := start rg; end_ := end_ rg;
                 metadata := (metadata rg ++ [("rowid", PInt k)])%list |}) in *.
  assert (PyDict.get "rowid" (metadata rg1) = Some (PInt k)) as Hget.
  { simpl. rewrite <- (setitem_new _ _ _ H). apply get_setitem. }
  pose proof (storeAnnotation_existing_eq text_to_integer
                (with_annotations p (insert_row (stored_row k S1 rg)
                                                (annotations (db p))))
                S2 rg1 k Hget) as E2.
  assert (delete_rowid k (insert_row (stored_row k S1 rg) (annotations (db p)))
          = annotations (db p)) as Hdel.
  { unfold delete_rowid. rewrite insert_row_filter_out.
    - apply delete_rowid_absent. intros x Hx. now apply new_rowid_fresh.
    - simpl. now rewrite Z.eqb_refl. }
  simpl in E2. rewrite Hdel in E2.
  eexists k, _, _, rg1. split; [exact E1|]. split; [exact E2|].
  split; [|split].
  - unfold getAnnotations, select_annotations. simpl. f_equal.
    apply insert_row_filter_out. simpl.
    apply String.eqb_neq. now apply not_eq_sym.
  - apply getAnnotations_In. exists (stored_row k S2 rg1).
    split; [|split; reflexivity]. simpl. apply insert_row_In. now left.
  - intros s. rewrite !(getAnnotationSetNames_In text_to_integer). simpl. split.
    + intros [row [H1 H2]]. apply insert_row_In in H1.
      destruct H1 as [->|H1]; [now left | right; eauto].
    + intros [->|[row [H1 H2]]].
      * eexists. split; [apply insert_row_In; left; reflexivity | reflexivity].
      * exists row. split; [apply insert_row_In; now right | exact H2].
Qed.

End MoreReads.

(** ** The stored metadata text *)

Module JsonAscii.
Import PyStr PyStrFacts Json.

Lemma all_printable_app (a b : string) :
  all_printable (a ++ b) = all_printable a && all_printable b.
Proof.
  induction a as [|c a IH]; simpl; [reflexivity|].
  now rewrite IH, andb_assoc.
Qed.

Lemma escape_char_printable (c : ascii) : all_printable (escape_char c) = true.
Proof.
  destruct c as [b0 b1 b2 b3 b4 b5 b6 b7].
  destruct b0, b1, b2, b3, b4, b5, b6, b7; reflexivity.
Qed.

Lemma escape_printable (s : string) : all_printable (escape s) = true.
Proof.
  induction s as [|c s IH]; simpl; [reflexivity|].
  now rewrite all_printable_app, escape_char_printable, IH.
Qed.

Lemma encode_printable (s : string) :
  all_printable (encode_basestring_ascii s) = true.
Proof.
  unfold encode_basestring_ascii. simpl.
  now rewrite all_printable_app, escape_printable.
Qed.

Lemma uint_printable (d : Decimal.uint) :
  all_printable (NilEmpty.string_of_uint d) = true.
Proof. induction d; simpl; trivial. Qed.

Lemma int_repr_printable (z : Z) : all_printable (int_repr z) = true.
Proof.
  unfold int_repr, NilZero.string_of_int, NilZero.string_of_uint.
  destruct (Z.to_int z) as [d|d]; destruct d; simpl;
    trivial; apply uint_printable.
Qed.

Lemma sep_join_printable (s : string) (l : list string) :
  all_printable s = true ->
  Forall (fun x => all_printable x = true) l ->
  all_printable (sep_join s l) = true.
Proof.
  intros Hs. induction 1 as [|x l Hx Hl IH]; [reflexivity|].
  destruct l as [|y l]; [exact Hx|].
  change (sep_join s (x :: y :: l)) with (x ++ s ++ sep_join s (y :: l)).
  now rewrite !all_printable_app, Hx, Hs, IH.
Qed.

(** Induction on a value, with the property for the items of a list and
    the values of a dict. *)
Lemma pyval_nested_ind (P : pyval -> Prop) :
  P PNone ->
  (forall b, P (PBool b)) ->
  (forall z, P (PInt z)) ->
  (forall s, P (PStr s)) ->
  (forall l, Forall P l -> P (PList l)) ->
  (forall d, Forall (fun kv => P (snd kv)) d -> P (PDict d)) ->
  forall v, P v.
Proof.
  intros HN HB HI HS HL HD. fix IH 1. intros [|b|z|s|l|d].
  - exact HN.
  - apply HB.
  - apply HI.
  - apply HS.
  - apply HL. induction l as [|x l IHl]; constructor; [apply IH | exact IHl].
  - apply HD. induction d as [|[k x] d IHd]; constructor;
      [apply IH | exact IHd].
Qed.

Lemma dumps_printable (v : pyval) : all_printable (dumps v) = true.
Proof.
  induction v as [|b|z|s|l Hl|d Hd] using pyval_nested_ind.
  - reflexivity.
  - now destruct b.
  - apply int_repr_printable.
  - apply encode_printable.
  - simpl. rewrite all_printable_app, andb_true_r.
    apply sep_join_printable; [reflexivity|].
    apply Forall_forall. intros x Hx. apply in_map_iff in Hx.
    destruct Hx as [y [<- Hy]]. rewrite Forall_forall in Hl. now apply Hl.
  - rewrite JsonFacts.dumps_dict. simpl.
    rewrite all_printable_app, andb_true_r.
    apply sep_join_printable; [reflexivity|].
    apply Forall_forall. intros x Hx. apply in_map_iff in Hx.
    destruct Hx as [[k y] [<- Hy]]. unfold item. simpl fst. simpl snd.
    rewrite !all_printable_app, encode_printable. simpl.
    rewrite Forall_forall in Hd. exact (Hd _ Hy).
Qed.

End JsonAscii.

Section MetaText.
Import Sqlite AnnotationTable JsonAscii.

Variable text_to_integer : string -> option Z.

Lemma storeAnnotation_printable (p p' : Project) (S : string) (rg rg' : Range) :
  (forall row, In row (annotations (db p)) -> all_printable (meta row) = true) ->
  storeAnnotation text_to_integer p S rg = Ok (p', rg') ->
  forall row, In row (annotations (db p')) -> all_printable (meta row) = true.
Proof.
  intros Hp. unfold storeAnnotation.
  destruct (store_execute _ _ _ _) as [[tbl last]|e] eqn:E; [|discriminate].
  simpl. intros H. injection H as <- _. simpl.
  destruct (store_execute_shape _ _ _ _ _ _ E) as [base [-> [Hb _]]].
  intros row Hrow. apply insert_row_In in Hrow. destruct Hrow as [->|Hrow].
  - exact (dumps_printable (PDict (metadata rg))).
  - apply Hp. apply (Hb row Hrow).
Qed.

(** X23.  The metadata text in the table is plain ASCII: whatever the
    strings in the metadata of the ranges, after any sequence of
    [storeAnnotation] calls on a table with printable texts (as an empty
    one) every [meta] that [getAnnotations] returns consists of printable
    ASCII characters, codes 32 to 126. *)
Theorem stored_meta_printable :
  forall (calls : list (string * Range)) (p p' : Project),
    (forall row, In row (annotations (db p)) ->
                 all_printable (meta row) = true) ->
    storeAll text_to_integer p calls = Ok p' ->
    forall (S : string) (t : Z * Z * Z * string),
      In t (getAnnotations p' S) -> all_printable (snd t) = true.
Proof.
  induction calls as [|[s rg] calls IH]; intros p p' Hp; simpl.
  - intros E S t Ht. injection E as <-.
    apply getAnnotations_In in Ht. destruct Ht as [row [H1 [_ ->]]].
    simpl. now apply Hp.
  - destruct (storeAnnotation text_to_integer p s rg) as [[p1 rg1]|e] eqn:E;
      [|discriminate].
    simpl. apply IH. exact (storeAnnotation_printable _ _ _ _ _ Hp E).
Qed.

End MetaText.

(** ** Further instances on concrete projects *)

Lemma storeAnnotation_new_frame_witness :
  is_new header_range /\
  exists (k : Z) (p' : Project) (rg' : Range),
    storeAnnotation no_text_rowid (Project_init "/proj" None) "set1" header_range
      = Ok (p', rg') /\
    forall t : Z * Z * Z * string,
      In t (getAnnotations p' "set2") <->
      In t (getAnnotations (Project_init "/proj" None) "set2") \/
      ("set2" = "set1" /\
       t = (k, start header_range, end_ header_range,
            Json.dumps (PDict (metadata header_range)))).
Proof.
  split; [reflexivity|].
  destruct (storeAnnotation_new_frame no_text_rowid (Project_init "/proj" None)
              "set1" header_range eq_refl) as [k [p' [rg' [E H]]]].
  exists k, p', rg'. split; [exact E|]. intros t. apply H.
Defined.

Lemma storeAnnotation_replace_frame_witness :
  PyDict.get "rowid" (metadata header_range_stored) = Some (PInt 1) /\
  exists p' : Project,
    storeAnnotation no_text_rowid (Project_init "/proj" None) "set1"
                    header_range_stored = Ok (p', header_range_stored) /\
    forall (S' : string) (t : Z * Z * Z * string),
      fst (fst (fst t)) <> 1%Z ->
      (In t (getAnnotations p' S') <->
       In t (getAnnotations (Project_init "/proj" None) S')).
Proof.
  split; [reflexivity|].
  exact (storeAnnotation_replace_frame no_text_rowid (Project_init "/proj" None)
           "set1" header_range_stored 1 eq_refl).
Defined.

Lemma storeAnnotation_idempotent_witness :
  PyDict.get "rowid" (metadata header_range_stored) = Some (PInt 1) /\
  exists p' : Project,
    storeAnnotation no_text_rowid (Project_init "/proj" None) "set1"
                    header_range_stored = Ok (p', header_range_stored) /\
    storeAnnotation no_text_rowid p' "set1" header_range_stored
      = Ok (p', header_range_stored).
Proof.
  split; [reflexivity|].
  exact (storeAnnotation_idempotent no_text_rowid (Project_init "/proj" None)
           "set1" header_range_stored 1 eq_refl).
Defined.

Lemma storeAnnotation_consecutive_witness :
  is_new header_range /\ is_new payload_range /\
  exists (k : Z) (p1 p2 : Project) (rg1' rg2' : Range),
    storeAnnotation no_text_rowid (Project_init "/proj" None) "set1" header_range
      = Ok (p1, rg1') /\
    storeAnnotation no_text_rowid p1 "set1" payload_range = Ok (p2, rg2') /\
    PyDict.get "rowid" (metadata rg1') = Some (PInt k) /\
    PyDict.get "rowid" (metadata rg2') = Some (PInt (k + 1)).
Proof.
  split; [reflexivity|]. split; [reflexivity|].
  destruct (storeAnnotation_consecutive no_text_rowid (Project_init "/proj" None)
              "set1" "set1" header_range payload_range eq_refl eq_refl)
    as [k [p1 [p2 [rg1' [rg2' [E1 [E2 [H1 [H2 _]]]]]]]]].
  exists k, p1, p2, rg1', rg2'. repeat split; assumption.
Defined.

Lemma storeAnnotation_unknown_rowid_witness :
  PyDict.get "rowid" (metadata header_range_stored) = Some (PInt 1) /\
  (forall x, In x (annotations (db (Project_init "/proj" None))) ->
             rowid x <> 1%Z) /\
  exists p' : Project,
    storeAnnotation no_text_rowid (Project_init "/proj" None) "set1"
                    header_range_stored = Ok (p', header_range_stored) /\
    Permutation (annotations (db p'))
                (stored_row 1 "set1" header_range_stored
                   :: annotations (db (Project_init "/proj" None))).
Proof.
  assert (forall x, In x (annotations (db (Project_init "/proj" None))) ->
                    rowid x <> 1%Z) as H.
  { intros x []. }
  split; [reflexivity|]. split; [exact H|].
  exact (storeAnnotation_unknown_rowid no_text_rowid (Project_init "/proj" None)
           "set1" header_range_stored 1 eq_refl H).
Defined.

Lemma storeAnnotation_rowid_None_witness :
  PyDict.get "rowid" (metadata range_rowid_none) = Some PNone /\
  exists (k : Z) (p' : Project) (rg' : Range),
    storeAnnotation no_text_rowid (Project_init "/proj" None) "set1"
                    range_rowid_none = Ok (p', rg') /\
    PyDict.get "rowid" (metadata rg') = Some (PInt k).
Proof.
  split; [reflexivity|].
  destruct (storeAnnotation_rowid_None no_text_rowid (Project_init "/proj" None)
              "set1" range_rowid_none eq_refl)
    as [k [p' [rg' [E [_ [_ [H _]]]]]]].
  exists k, p', rg'. split; assumption.
Defined.

Lemma storeAnnotation_rowid_unsupported_witness :
  PyDict.get "rowid" (metadata range_rowid_list) = Some (PList [PInt 1]) /\
  storeAnnotation no_text_rowid (Project_init "/proj" None) "set1"
                  range_rowid_list = Raise ProgrammingError.
Proof.
  split; [reflexivity|].
  apply (storeAnnotation_rowid_unsupported no_text_rowid
           (Project_init "/proj" None) "set1" range_rowid_list
           (PList [PInt 1]) eq_refl).
  left. exists [PInt 1]. reflexivity.
Defined.

Lemma storeAll_unique_rowids_witness :
  rowid_order (annotations (db (Project_init "/proj" None))) /\
  exists p' : Project,
    storeAll no_text_rowid (Project_init "/proj" None)
             [("set1", header_range); ("set2", header_range_stored);
              ("set1", payload_range)] = Ok p' /\
    NoDup (map rowid (annotations (db p'))).
Proof.
  assert (rowid_order (annotations (db (Project_init "/proj" None)))) as H.
  { constructor. }
  split; [exact H|].
  eexists. split; [reflexivity|].
  exact (proj1 (storeAll_unique_rowids no_text_rowid _ _
                  [("set1", header_range); ("set2", header_range_stored);
                   ("set1", payload_range)] H eq_refl)).
Defined.

Lemma storeAll_keeps_options_witness :
  exists p' : Project,
    storeAll no_text_rowid
             (@setValue bytes raw_codec (Project_init "/proj" None) "color"
                        [Byte.x01])
             [("set1", header_range); ("set1", payload_range)] = Ok p' /\
    @getValue bytes raw_codec p' "color" [] = [Byte.x01].
Proof.
  eexists. split; [reflexivity|].
  exact (proj1 (storeAll_keeps_options no_text_rowid bytes raw_codec _ _
                  [("set1", header_range); ("set1", payload_range)]
                  "color" [] eq_refl)).
Defined.

Lemma storeAnnotation_moves_witness :
  is_new header_range /\ "set1" <> "set2" /\
  exists (k : Z) (p1 p2 : Project) (rg1 : Range),
    storeAnnotation no_text_rowid (Project_init "/proj" None) "set1" header_range
      = Ok (p1, rg1) /\
    storeAnnotation no_text_rowid p1 "set2" rg1 = Ok (p2, rg1) /\
    getAnnotations p2 "set1" = getAnnotations (Project_init "/proj" None) "set1".
Proof.
  assert ("set1" <> "set2") as Hne by discriminate.
  split; [reflexivity|]. split; [exact Hne|].
  destruct (storeAnnotation_moves no_text_rowid (Project_init "/proj" None)
              "set1" "set2" header_range eq_refl Hne)
    as [k [p1 [p2 [rg1 [E1 [E2 [H _]]]]]]].
  exists k, p1, p2, rg1. repeat split; assumption.
Defined.

Lemma stored_meta_printable_witness :
  exists p' : Project,
    storeAll no_text_rowid (Project_init "/proj" None)
             [("set1", header_range); ("set1", payload_range)] = Ok p' /\
    forall t : Z * Z * Z * string,
      In t (getAnnotations p' "set1") -> all_printable (snd t) = true.
Proof.
  eexists. split; [reflexivity|].
  apply (stored_meta_printable no_text_rowid
           [("set1", header_range); ("set1", payload_range)]
           (Project_init "/proj" None)).
  - intros row [].
  - reflexivity.
Defined.
